(* ===== verification/_CoqProject ===== *)
-Q . S2P
Prelude.v
JsNum.v
Grayscale.v
EditState.v
Platform.v
Canvas.v
Panels.v
View.v
App.v
AppView.v
