(* ===== verification/Prelude.v ===== *)
(** * A verification of the image-processing demo (React + canvas 2D)

    The program (src/src) is a single-page React application:

    - [App.tsx] owns the state: three independent edit states
      ([ImageState], one per "layout" tab), the active tab index and one
      shared [isLoading] flag.  Its handlers are [setActiveTab],
      [handleReset], [handleImageUpload] (a [FileReader] whose [onloadend]
      callback writes the data URL later) and [updateImageState] (merge of a
      [Partial<ImageState>]).  Every render of [App] mounts three
      [ImageCanvas] surfaces: the original (neutral filters, no text), the
      processed one and a grayscale-forced preview.
    - [components/ImageCanvas.tsx] is the render routine: an effect creates
      an [Image], and its [onload] resizes the canvas, sets the filter string
      [brightness(..%) contrast(..%) blur(..px)], draws the image, rewrites
      the pixel buffer to grayscale if asked (the only loop of the program),
      draws the text overlay (stroke, then fill) and calls [onImageLoad].
    - [components/Controls.tsx] and [components/TextOverlay.tsx] are
      presentational panels whose [onChange] handlers call back into [App].
    - [components/RecipeCard.tsx] is a stateless card no module imports.

    The development is a library, one file per component, in dependency
    order:

    - [Prelude] (this file): the scope [editor_scope], the hint databases
      [editor] and [editor_rw], the tactics [zbools] and [zdiv_lia], and the
      generic lemmas on arrays as lists (reads and writes past a prefix, the
      four-at-a-time induction [list4_ind] of an RGBA loop).
    - [JsNum] (Module [JsNum]): JavaScript numbers as [Num q] (a finite
      number kept as an exact rational) or [NaN]; the [+], [*] and division
      by a constant the code uses; ToUint8Clamp, the conversion of a store
      into a [Uint8ClampedArray] (round half to even, clamp to 0..255, NaN
      to 0); [to_string] for template literals (exact on terminating
      decimals) and [of_string] for [Number(e.target.value)].  [num_eq]
      (the same value in any representation) is an equivalence the
      arithmetic and ToUint8Clamp respect ([Proper] instances, used by
      setoid rewriting).  Theorems: an integer prints as its decimal
      numeral ([to_string_integer]); integers and the blur slider's
      multiples of 0.5 read back as themselves
      ([of_string_int_string], [half_string_roundtrip]); [to_string]
      depends on the value only ([to_string_proper]).
    - [Grayscale] (Module [Grayscale]): the loop of ImageCanvas.tsx lines
      58-63 over [imageData.data], body [gray_body], loop [gray_loop] with
      fuel, entry [grayscale].  Theorems: it terminates with the fuel the
      entry point gives ([grayscale_terminates]), equals the per-pixel map
      [R,G,B := round((R+G+B)/3)] with alpha kept on RGBA byte buffers
      ([grayscale_spec]), keeps length and bytes and makes R = G = B
      ([grayscale_channels]) and is idempotent ([grayscale_idempotent]);
      the byte stored for a mean is the same for any value within 1/6 of
      the exact one, so for the double the browser computes
      ([avg3_float_robust], from [JsNum.uint8_clamp_round]).
    - [EditState] (Module [EditState]): [ImageState] and
      [defaultImageState] of App.tsx, [Partial<ImageState>] as a list of
      keyed fields and the object spread as [merge]; [wf_state], the ranges
      of the input widgets, kept by every update the widgets produce.
      [≡] on states (stdpp's [Equiv]: equal fields, numbers compared as
      values) is an equivalence that [set_field], [merge] and [wf_state]
      respect ([Proper] instances).
    - [Platform] (Module [Platform]): type classes for what the browser
      provides, [ImageDecoder] ([new Image()], [src], [onload]/[onerror]),
      [Canvas2D] (drawImage under a filter, strokeText, fillText) and
      [FileAPI] ([readAsDataURL]), with the laws the theorems use; and a
      concrete [ModelBrowser] on which the witnesses run.
    - [Canvas] (Module [Canvas]): the canvas (size, 2D context attributes,
      pixel buffer, log of draw calls) and each of its operations the code
      calls, in a state and exception monad [M]; [onload] is
      [image.onload] of ImageCanvas.tsx (lines 39-85) composed of
      [draw_filtered], [apply_grayscale] and [draw_overlay].  Theorems:
      [onload_refines] characterises the routine on every input against
      the abstract [render_spec] (an [IndexSizeError] exactly when graying
      a 0-size image); the rest show the grayscale path, the text overlay,
      the independence from the previous canvas, the error path, and the
      filter string's numerals [100 + b] and [100 + c]
      ([filter_string_integers]).  [onload_text_inside] bounds
      the text: with the position on the sliders' 0..100 scale every
      [strokeText]/[fillText] is anchored inside the canvas
      ([text_anchor_inside]).
    - [Panels] (Module [Panels]): the [onChange] handlers of Controls.tsx
      and TextOverlay.tsx composed with the callbacks App.tsx passes: the
      [Partial<ImageState>] each input event asks [App] to merge, and
      [widget_ok], the values each input can produce.  A value a range
      input produces reads back through [Number] into its range
      ([range_value_int], [range_value_half]), so every update is one key
      with a value in range ([on_change_ok]).
    - [View] (Module [View]): the JSX of Controls.tsx, TextOverlay.tsx and
      RecipeCard.tsx as element trees ([node]: tag, attributes, children,
      or text, with a nested induction principle), read with the queries
      [subnodes], [attr], [text_content] and [range_inputs].  A number
      child or attribute renders as [JsNum.to_string].  Theorems: the
      range inputs of the two panels read back, through
      [Number(e.target.value)], as the values they display
      ([panels_show_state]), and the recipe card shows its title, time,
      servings and difficulty and the recipe's image
      ([recipe_card_shows]).
    - [App] (Module [App]): the orchestrator.  [AppState] holds App's three
      hooks and what the browser holds for it: pending [FileReader]s (with
      the tab index their closure captured), pending image loads (with the
      canvas and props their closure captured) and the three canvases.
      Setters bail out on unchanged values as React does; every other
      state change re-renders ([commit]), and each render starts three
      loads because [onImageLoad] is a new arrow each time.  [handle_event]
      handles user events and browser callbacks; [step] admits a user
      event when the widget can produce it ([allowed]: a click on a
      rendered tab button, an input value [Panels.widget_ok] accepts from
      the input's [min], [max] and [step]), whatever the handler then
      does with it; [reachable] is the closure from the first render.
      Theorems: the refinement of the specification's contract of the
      state container ([contract_step]: switch, reset, replace one field
      by a value in its widget's range, store a URL) by every event
      ([app_refines_contract]), the reachable-state
      invariant [reachable_wf] by rule induction, tab isolation, reset,
      tab switch, control updates, the
      upload landing in the initiating tab, totality of user events,
      termination of callback runs (a well-founded measure), the restart
      of all three loads by the render that clears the spinner, the
      completion signal (the spinner goes off exactly when a routine
      returns normally), a failed read storing [null], the spinner
      staying on forever once every pending load fails
      ([spinner_stuck_when_loads_fail]), and
      convergence: when loads complete in the order they started
      ([ordered_reachable]), completing them ends with every canvas
      showing the current state ([ordered_loads_converge], proved from
      the invariant [display_tracks]).  Three concrete traces on the
      model browser show what happens otherwise: the shared spinner
      cleared by a load of the previous image while an upload is still
      being read, a stale load leaving the processed canvas drawn with
      the brightness before the last change, and one tab's text drawn on
      another tab's preview.
    - [AppView] (Module [AppView]): the JSX of App.tsx (lines 83-237) as a
      [View.node]: [page] renders the sidebar ([tab_button] for each of
      [App.tabs]), the header, the three canvas columns with their
      [{isLoading && ...}] spinners ([spinner_if]), the upload input, the
      two panels and the reset button; [app_view] reads
      [imageStates[activeTab]] ([None] where that read throws).
      Theorems on every well-formed state: the page's six range inputs
      read back as the active tab's values
      ([page_sliders_show_active_tab]), exactly the active tab's button is
      highlighted ([page_highlights_active_tab]), and each of the three
      canvases carries a spinner exactly while [isLoading] holds
      ([spinner_covers_canvases]).  The page respects [≡] ([page_proper]),
      and composing the view, the panels and the orchestrator: a slider
      moved to the value it shows is handled and changes neither the
      edit states (up to [≡]) nor the page ([slider_echo_keeps_states]);
      a reset shows the defaults' page ([reset_page_shows_defaults]);
      switching to another tab and back shows the same page
      ([tab_round_trip_same_page]).

    Fuel and bounds.  [grayscale] gives the loop [S (length data)] units of
    fuel; the loop needs one per 4 elements plus one, so
    [length data + 4 <= 4 * fuel] suffices ([grayscale_terminates]) and
    the entry point never runs out.  [JsNum.to_string] prints exactly the
    numbers whose expansion ends within 21 fractional digits
    ([decimal_scale] has fuel 22 for the 0..21 candidates); every number
    the program prints is an integer or a multiple of 0.5.  Channel values are [Z] and every
    store goes through ToUint8Clamp, so bytes stay in 0..255.  The
    browser's initial 300 x 150 canvases are a parameter of [App.state0]:
    [Canvas.onload_from_scratch] shows no completed load depends on them.

    Not modelled: how the browser lays out and styles the page from the
    CSS classes (the classes are modelled as attribute strings); the
    [key] of the tab buttons and the event-handler props of the markup
    (their effect is [Panels] and [App]); React StrictMode double effects; the pixels
    a CSS filter or a font produces (abstract in [Canvas2D]); base64
    encoding of data URLs (abstract in [FileAPI]); numbers in exponent
    notation and infinities (the widgets cannot produce them); the
    rounding of IEEE-754 doubles.  Numbers are exact rationals: the
    sliders produce integers and halves, sums and products of them are
    exact in doubles, and the divisions of the code are by 3 (the gray
    mean, whose stored byte is the same within 1/6 of the exact value,
    [avg3_float_robust]) and by 8 and 100 (the line width and the text
    anchor, passed to the canvas, where a correctly rounded quotient of
    a value between 0 and [100 * width] stays between 0 and [width]). *)

From stdpp Require Export base list strings decidable options.
From Stdlib Require Export ZArith QArith Qround Lia Lqa.

(** QArith opens [Q_scope]; the components compute on [nat] indices first
    and annotate their rationals. *)
Open Scope nat_scope.

Declare Scope editor_scope.
Delimit Scope editor_scope with editor.

Create HintDb editor.
Create Rewrite HintDb editor_rw.

(** Boolean comparisons on [Z] turned into propositions, so that [lia]
    finishes the arithmetic of the guards the code tests. *)
Ltac zbools :=
  repeat match goal with
  | |- context [Z.leb ?a ?b] => destruct (Z.leb_spec a b)
  | |- context [Z.ltb ?a ?b] => destruct (Z.ltb_spec a b)
  | |- context [Z.eqb ?a ?b] => destruct (Z.eqb_spec a b)
  | |- context [Nat.ltb ?a ?b] => destruct (Nat.ltb_spec a b)
  | |- context [Nat.leb ?a ?b] => destruct (Nat.leb_spec a b)
  end.

(** [lia] after turning [Z.div] and [Z.modulo] by constants into
    equations (the code divides by 3, 8 and 100). *)
Ltac zdiv_lia := Z.div_mod_to_equations; lia.

(** ** Generic lemmas on lists used as JavaScript arrays *)

Section lists.
Context {A : Type}.
Implicit Types (l pre rest : list A) (x : A).

(** Writing at an index inside the suffix of an array. *)
Lemma insert_app_len pre rest k x :
  <[(length pre + k)%nat := x]> (pre ++ rest) = pre ++ <[k := x]> rest.
Proof. by rewrite insert_app_r. Qed.

(** Reading at an index inside the suffix of an array. *)
Lemma lookup_app_len pre rest k :
  (pre ++ rest) !! (length pre + k)%nat = rest !! k.
Proof. by rewrite lookup_app_r, Nat.add_sub' by lia. Qed.

(** An array of three slots updated at one index keeps its length. *)
Lemma length_insert_eq l i x : length (<[i := x]> l) = length l.
Proof. apply length_insert. Qed.

(** Induction over an array read four elements at a time, the way a
    loop with [i += 4] reads an RGBA buffer; the three short tails are
    cases of their own. *)
Lemma list4_ind (P : list A -> Prop) :
  P [] ->
  (forall a, P [a]) ->
  (forall a b, P [a; b]) ->
  (forall a b c, P [a; b; c]) ->
  (forall a b c d l, P l -> P (a :: b :: c :: d :: l)) ->
  forall l, P l.
Proof.
  intros H0 H1 H2 H3 H4.
  fix IH 1. intros [|a [|b [|c [|d l]]]].
  - exact H0.
  - apply H1.
  - apply H2.
  - apply H3.
  - apply H4, IH.
Qed.
End lists.

(** ** Strings as the template literals build them

    stdpp makes [String.append] opaque to [simpl]; these are its
    defining equations. *)

Lemma string_app_nil_l (s : string) : String.append EmptyString s = s.
Proof. reflexivity. Qed.

Lemma string_app_cons (c : Ascii.ascii) (s t : string) :
  String.append (String c s) t = String c (String.append s t).
Proof. reflexivity. Qed.

Lemma string_app_nil_r (s : string) : String.append s EmptyString = s.
Proof. induction s as [|c s IH]; [done|]. by rewrite string_app_cons, IH. Qed.

Lemma string_app_assoc (s t u : string) :
  String.append s (String.append t u) = String.append (String.append s t) u.
Proof. induction s as [|c s IH]; [done|]. by rewrite !string_app_cons, IH. Qed.

(** A buffer four bytes longer has the same length modulo 4. *)
Lemma mod4_S4 (n : nat) : (S (S (S (S n)))) mod 4 = n mod 4.
Proof.
  replace (S (S (S (S n)))) with (n + 1 * 4)%nat by lia.
  apply Nat.Div0.mod_add.
Qed.

#[export] Hint Rewrite @insert_app_len @lookup_app_len @length_insert : editor_rw.
