(* ===== verification/JsNum.v ===== *)
(** * JsNum: the JavaScript numbers the program computes with

    A JavaScript number is modelled as [Num q] for a finite value, kept as
    an exact rational [q : Q], or [NaN].  The code only adds, multiplies
    and divides by the literals 3, 8 and 100; infinities never arise.
    Reading a typed array out of range gives [undefined], which the only
    use (an addition) turns into [NaN], so it is modelled by [NaN] too.

    This file holds [ToUint8Clamp] (ECMA-262 7.1.12, the conversion a
    store into a [Uint8ClampedArray] performs), [Number::toString] for the
    values template literals print, and [Number(string)] on the decimal
    literals a range input produces; the equivalence [num_eq] of two
    representations of one value, which these operations respect; and
    the round trips of printing and reading back the sliders' values. *)

From Stdlib Require Import Ascii DecimalString DecimalN.
From S2P Require Import Prelude.

Module JsNum.

Local Open Scope Z_scope.

Inductive number :=
| Num (q : Q)
| NaN.

Definition add (x y : number) : number :=
  match x, y with
  | Num a, Num b => Num (a + b)%Q
  | _, _ => NaN
  end.

Definition mul (x y : number) : number :=
  match x, y with
  | Num a, Num b => Num (a * b)%Q
  | _, _ => NaN
  end.

(** Division by a positive literal ([/ 3], [/ 8], [/ 100] in the code). *)
Definition divc (x : number) (d : positive) : number :=
  match x with
  | Num a => Num (a / inject_Z (Zpos d))%Q
  | NaN => NaN
  end.

(** ** ToUint8Clamp *)

(** Steps 3 to 9 of ToUint8Clamp on a finite value: clamp to [0, 255],
    then round to nearest with ties to even. *)
Definition uint8_clamp (q : Q) : Z :=
  if Qle_bool q 0%Q then 0
  else if Qle_bool 255%Q q then 255
  else
    let f := Qfloor q in
    let half := (inject_Z f + (1 # 2))%Q in
    if negb (Qle_bool q half) then f + 1
    else if negb (Qle_bool half q) then f
    else if Z.odd f then f + 1 else f.

(** Step 2: [NaN] is stored as 0. *)
Definition to_uint8_clamp (x : number) : Z :=
  match x with
  | Num q => uint8_clamp q
  | NaN => 0
  end.

(** ** Number::toString, radix 10

    A number whose decimal expansion terminates within 21 fractional
    digits is printed exactly, without trailing zeros, as JavaScript does
    for such values (every value this program prints is of this kind: an
    integer or a multiple of 0.5).  For other values the model prints the
    expansion truncated to 21 digits, where JavaScript would print 17
    significant digits; no theorem relies on that case. *)

Fixpoint decimal_scale (fuel k : nat) (n : Z) (d : positive) : option nat :=
  match fuel with
  | O => None
  | S fuel' =>
      if Z.eqb ((n * 10 ^ Z.of_nat k) mod Zpos d) 0 then Some k
      else decimal_scale fuel' (S k) n d
  end.

Definition digits (n : N) : string := NilEmpty.string_of_uint (N.to_uint n).

Fixpoint zeros (n : nat) : string :=
  match n with
  | O => EmptyString
  | S n' => String "0"%char (zeros n')
  end.

Definition zero_pad (k : nat) (s : string) : string :=
  (zeros (k - String.length s) ++ s)%string.

Definition to_string (x : number) : string :=
  match x with
  | NaN => "NaN"%string
  | Num q =>
      let k := default 21%nat (decimal_scale 22 0 (Qnum q) (Qden q)) in
      let m := Z.quot (Qnum q * 10 ^ Z.of_nat k) (Zpos (Qden q)) in
      let sign := if Z.ltb m 0 then "-"%string else EmptyString in
      let a := Z.to_N (Z.abs m) in
      match k with
      | O => (sign ++ digits a)%string
      | S _ =>
          (sign ++ digits (a / 10 ^ N.of_nat k) ++ "."
                ++ zero_pad k (digits (a mod 10 ^ N.of_nat k)))%string
      end
  end.

(** ** Number(string) on decimal literals

    StringToNumber on [-]digits[.digits], the literals a range input's
    [value] holds; the empty string is 0.  The value is returned in lowest
    terms ([Qred]), so that equal numbers are equal terms.  Strings outside this subset
    (white space, [+], exponents, [Infinity], hexadecimal) give [NaN] in
    the model, although JavaScript accepts some of them. *)

Fixpoint split_dot (s : string) : string * option string :=
  match s with
  | EmptyString => (EmptyString, None)
  | String c r =>
      if Ascii.eqb c "."%char then (EmptyString, Some r)
      else let '(a, b) := split_dot r in (String c a, b)
  end.

Definition digits_value (s : string) : option N :=
  N.of_uint <$> NilEmpty.uint_of_string s.

Definition unsigned_of_string (s : string) : option Q :=
  let '(ip, fp) := split_dot s in
  match fp with
  | None =>
      if String.eqb ip EmptyString then None
      else i ← digits_value ip; Some (inject_Z (Z.of_N i))
  | Some f =>
      if String.eqb ip EmptyString && String.eqb f EmptyString then None
      else
        i ← digits_value ip;
        fv ← digits_value f;
        Some ((Z.of_N i * 10 ^ Z.of_nat (String.length f) + Z.of_N fv)
                # Pos.pow 10 (Pos.of_nat (String.length f)))
  end.

Definition of_string (s : string) : number :=
  match s with
  | EmptyString => Num 0%Q
  | String c r =>
      if Ascii.eqb c "-"%char then
        match unsigned_of_string r with Some q => Num (Qred (- q)) | None => NaN end
      else
        match unsigned_of_string s with Some q => Num (Qred q) | None => NaN end
  end.

(** Two numbers are the same JavaScript value: equal rationals (in any
    representation), or both [NaN]. *)
Definition num_eq (x y : number) : Prop :=
  match x, y with
  | Num a, Num b => (a == b)%Q
  | NaN, NaN => True
  | _, _ => False
  end.

(** The decimal numeral of an integer, with a minus sign when negative. *)
Definition int_string (z : Z) : string :=
  ((if Z.ltb z 0 then "-" else EmptyString) ++ digits (Z.to_N (Z.abs z)))%string.

(** ** Lemmas *)

(** The guards of [uint8_clamp] on a value [n # d] are comparisons of
    integers. *)
Lemma Qle_bool_make (a c : Z) (b d : positive) :
  Qle_bool (a # b) (c # d) = Z.leb (a * Zpos d) (c * Zpos b).
Proof. reflexivity. Qed.

Lemma Qle_bool_half_l (a f : Z) (b : positive) :
  Qle_bool (a # b) (inject_Z f + (1 # 2))%Q = Z.leb (a * 2) ((2 * f + 1) * Zpos b).
Proof. unfold Qle_bool; cbn. f_equal; lia. Qed.

Lemma Qle_bool_half_r (a f : Z) (b : positive) :
  Qle_bool (inject_Z f + (1 # 2))%Q (a # b) = Z.leb ((2 * f + 1) * Zpos b) (a * 2).
Proof. unfold Qle_bool; cbn. f_equal; lia. Qed.

Lemma uint8_clamp_bounds (q : Q) : 0 <= uint8_clamp q <= 255.
Proof.
  destruct q as [n d]. unfold uint8_clamp, Qfloor.
  rewrite !Qle_bool_make.
  assert (Hd : 0 < Zpos d) by lia.
  zbools; try lia.
  assert (0 <= n / Zpos d) by (apply Z.div_pos; lia).
  assert (n / Zpos d < 255) by (apply Z.div_lt_upper_bound; lia).
  repeat match goal with |- context [if ?b then _ else _] => destruct b end; lia.
Qed.

Lemma to_uint8_clamp_bounds (x : number) : 0 <= to_uint8_clamp x <= 255.
Proof. destruct x; [apply uint8_clamp_bounds | cbn; lia]. Qed.

(** A byte value is stored unchanged. *)
Lemma uint8_clamp_Z (v : Z) : 0 <= v <= 255 -> uint8_clamp (inject_Z v) = v.
Proof.
  intros Hv. unfold uint8_clamp. change (inject_Z v) with (v # 1)%Q. unfold Qfloor.
  rewrite !Qle_bool_make, Qle_bool_half_l, Qle_bool_half_r, Z.div_1_r.
  zbools; cbn; lia.
Qed.

(** A third of an integer sum of three bytes is never halfway between
    two integers, so ToUint8Clamp rounds it to nearest: [(s + 1) / 3]. *)
Lemma uint8_clamp_third (s : Z) : 0 <= s <= 765 -> uint8_clamp (s # 3) = (s + 1) / 3.
Proof.
  intros Hs. unfold uint8_clamp, Qfloor.
  rewrite !Qle_bool_make, Qle_bool_half_l, Qle_bool_half_r.
  pose proof (Z.div_mod s 3 ltac:(lia)).
  pose proof (Z.mod_pos_bound s 3 ltac:(lia)).
  pose proof (Z.div_mod (s + 1) 3 ltac:(lia)).
  pose proof (Z.mod_pos_bound (s + 1) 3 ltac:(lia)).
  zbools; cbn; lia.
Qed.

(** A number strictly within one half of a byte [k] is stored as [k]:
    there is no tie to break and no clamping that changes it. *)
Lemma uint8_clamp_round (k n : Z) (d : positive) :
  0 <= k <= 255 -> ((2 * k - 1) * Zpos d < 2 * n < (2 * k + 1) * Zpos d)%Z ->
  uint8_clamp (n # d) = k.
Proof.
  intros Hk Hq. unfold uint8_clamp, Qfloor.
  rewrite !Qle_bool_make, Qle_bool_half_l, Qle_bool_half_r.
  pose proof (Z.div_mod n (Zpos d) ltac:(lia)).
  pose proof (Z.mod_pos_bound n (Zpos d) ltac:(lia)).
  assert (n / Zpos d = k \/ n / Zpos d = k - 1) as [Hf|Hf] by nia;
    rewrite Hf; zbools; cbn; nia.
Qed.

(** ** The value, not its representation

    The operations the code applies to numbers depend on the value only:
    [num_eq] is an equivalence they respect, so a number can be replaced
    by any representation of it (setoid rewriting). *)

#[export] Instance num_eq_equiv : Equivalence num_eq.
Proof.
  split.
  - intros [q|]; cbn; [reflexivity|exact I].
  - intros [a|] [b|]; cbn; try done; intros H; by symmetry.
  - intros [a|] [b|] [c|]; cbn; try done; intros H1 H2; by transitivity b.
Qed.

#[export] Instance Num_proper : Proper (Qeq ==> num_eq) Num.
Proof. intros a b H. exact H. Qed.

#[export] Instance add_proper : Proper (num_eq ==> num_eq ==> num_eq) add.
Proof. intros [a|] [a'|] Ha [b|] [b'|] Hb; cbn in *; try done; by rewrite Ha, Hb. Qed.

#[export] Instance mul_proper : Proper (num_eq ==> num_eq ==> num_eq) mul.
Proof. intros [a|] [a'|] Ha [b|] [b'|] Hb; cbn in *; try done; by rewrite Ha, Hb. Qed.

#[export] Instance divc_proper : Proper (num_eq ==> eq ==> num_eq) divc.
Proof. intros [a|] [a'|] Ha d ? <-; cbn in *; try done; by rewrite Ha. Qed.

#[export] Instance uint8_clamp_proper : Proper (Qeq ==> eq) uint8_clamp.
Proof.
  intros q q' Hq. unfold uint8_clamp. cbv zeta. rewrite (Qfloor_comp q q' Hq).
  rewrite !(Qleb_comp q q' Hq _ _ (Qeq_refl _)), !(Qleb_comp _ _ (Qeq_refl _) q q' Hq).
  reflexivity.
Qed.

(** The byte a [Uint8ClampedArray] stores depends on the value only. *)
#[export] Instance to_uint8_clamp_proper : Proper (num_eq ==> eq) to_uint8_clamp.
Proof. intros [a|] [a'|] Ha; cbn in *; try done; by rewrite Ha. Qed.

(** ** Printing and reading back numbers *)

Lemma Qred_inject_Z (z : Z) : Qred (inject_Z z) = inject_Z z.
Proof.
  unfold Qred, inject_Z. pose proof (Z.ggcd_gcd z 1) as Hg.
  pose proof (Z.ggcd_correct_divisors z 1) as Hd.
  destruct (Z.ggcd z 1) as [g [aa bb]]. cbn in Hg. rewrite Z.gcd_1_r in Hg. subst g.
  destruct Hd as [-> Hb]. assert (bb = 1) as -> by lia. by rewrite Z.mul_1_l.
Qed.

(** A numeral has no dot and starts with a digit. *)
Lemma split_dot_numeral (u : Decimal.uint) (t : string) :
  split_dot (NilEmpty.string_of_uint u ++ t) =
    let '(a, b) := split_dot t in ((NilEmpty.string_of_uint u ++ a)%string, b).
Proof.
  induction u; cbn [NilEmpty.string_of_uint].
  1: change (EmptyString +:+ t) with t; by destruct (split_dot t).
  all: lazymatch goal with |- split_dot (String ?c ?r +:+ ?t') = _ =>
    change (String c r +:+ t') with (String c (r +:+ t')) end.
  all: cbn [split_dot Ascii.eqb Bool.eqb andb]; rewrite IHu; by destruct (split_dot t).
Qed.

Lemma digits_cons (n : N) : exists c r, digits n = String c r /\ Ascii.eqb c "-"%char = false.
Proof.
  unfold digits. destruct (N.to_uint n) eqn:E.
  1: exfalso; pose proof (DecimalN.Unsigned.of_to n) as Hn;
     rewrite E in Hn; cbn in Hn; subst n; discriminate E.
  all: eexists _, _; split; reflexivity.
Qed.

Lemma digits_value_digits (n : N) : digits_value (digits n) = Some n.
Proof.
  unfold digits_value, digits. rewrite NilEmpty.usu.
  exact (f_equal Some (DecimalN.Unsigned.of_to n)).
Qed.

Lemma unsigned_of_digits (n : N) : unsigned_of_string (digits n) = Some (inject_Z (Z.of_N n)).
Proof.
  unfold unsigned_of_string.
  pose proof (split_dot_numeral (N.to_uint n) EmptyString) as Hs.
  cbn [split_dot] in Hs. rewrite string_app_nil_r in Hs. fold (digits n) in Hs.
  rewrite Hs.
  destruct (digits_cons n) as (c & r & Hc & _). rewrite Hc. cbn [String.eqb].
  rewrite <- Hc, digits_value_digits. reflexivity.
Qed.

Lemma decimal_scale_S (f k : nat) (n : Z) (d : positive) :
  decimal_scale (S f) k n d =
  if Z.eqb ((n * 10 ^ Z.of_nat k) mod Zpos d) 0 then Some k else decimal_scale f (S k) n d.
Proof. reflexivity. Qed.

(** Two fractions of one value, scaled alike, have the same truncated
    quotient and are divisible alike. *)
Lemma quot_same_value (a a' : Z) (d d' : positive) :
  a * Zpos d' = a' * Zpos d -> Z.quot a (Zpos d) = Z.quot a' (Zpos d').
Proof.
  intros H. rewrite <- (Z.quot_mul_cancel_r a (Zpos d) (Zpos d')) by lia.
  rewrite H, (Z.mul_comm (Zpos d) (Zpos d')). apply Z.quot_mul_cancel_r; lia.
Qed.

Lemma mod_same_value (a a' : Z) (d d' : positive) :
  a * Zpos d' = a' * Zpos d -> Z.eqb (a mod Zpos d) 0 = Z.eqb (a' mod Zpos d') 0.
Proof.
  intros H.
  assert (Hd : forall b b' (e e' : positive), b * Zpos e' = b' * Zpos e ->
            (Zpos e | b) -> (Zpos e' | b')).
  { intros b b' e e' Hb [m ->]. exists m.
    apply (Z.mul_cancel_r _ _ (Zpos e)); [lia|]. rewrite <- Hb. lia. }
  destruct (Z.eqb_spec (a mod Zpos d) 0) as [E|E], (Z.eqb_spec (a' mod Zpos d') 0) as [E'|E'];
    try done; exfalso.
  - apply E'. apply Z.mod_divide; [lia|]. apply (Hd a a' d d' H). by apply Z.mod_divide.
  - apply E. apply Z.mod_divide; [lia|]. apply (Hd a' a d' d (eq_sym H)). by apply Z.mod_divide.
Qed.

Lemma decimal_scale_same_value (fuel k : nat) (n n' : Z) (d d' : positive) :
  n * Zpos d' = n' * Zpos d -> decimal_scale fuel k n d = decimal_scale fuel k n' d'.
Proof.
  intros H. revert k. induction fuel as [|fuel IH]; intros k; [done|].
  rewrite !decimal_scale_S, IH. rewrite (mod_same_value _ (n' * 10 ^ Z.of_nat k) d d') by nia.
  reflexivity.
Qed.

(** The string a number prints as depends on its value only. *)
#[export] Instance to_string_proper : Proper (num_eq ==> eq) to_string.
Proof.
  intros [[n d]|] [[n' d']|] H; cbn in H; try done.
  unfold Qeq in H. cbn in H. unfold to_string. cbn [Qnum Qden].
  rewrite (decimal_scale_same_value _ _ n n' d d' H). cbv zeta.
  generalize (default 21%nat (decimal_scale 22 0 n' d')). intros k.
  by rewrite (quot_same_value (n * 10 ^ Z.of_nat k) (n' * 10 ^ Z.of_nat k) d d') by nia.
Qed.

(** A fraction that is an integer prints as the numeral of the quotient. *)
Lemma to_string_scale0 (n : Z) (d : positive) :
  n mod Zpos d = 0 -> to_string (Num (n # d)) = int_string (Z.quot n (Zpos d)).
Proof.
  intros Hm. unfold to_string. cbn [Qnum Qden]. rewrite decimal_scale_S.
  cbn [Z.of_nat]. rewrite Z.pow_0_r, Z.mul_1_r, Hm. cbn [Z.eqb default id Z.of_nat].
  rewrite Z.pow_0_r, Z.mul_1_r. reflexivity.
Qed.

(** A rational with denominator 1 prints as the numeral of its numerator. *)
Lemma to_string_integer (q : Q) : Qden q = 1%positive -> to_string (Num q) = int_string (Qnum q).
Proof.
  destruct q as [n d]. cbn [Qden Qnum]. intros ->.
  rewrite to_string_scale0 by apply Z.mod_1_r. by rewrite Z.quot_1_r.
Qed.

(** An odd number of halves prints with the single fractional digit 5. *)
Lemma to_string_half_odd (a : Z) :
  0 <= a -> to_string (Num ((2 * a + 1) # 2)) = (digits (Z.to_N a) ++ ".5")%string.
Proof.
  intros Ha. unfold to_string. cbn [Qnum Qden]. rewrite !decimal_scale_S.
  assert (H0 : ((2 * a + 1) * 10 ^ Z.of_nat 0) mod 2 = 1) by (cbn; zdiv_lia).
  assert (H1 : ((2 * a + 1) * 10 ^ Z.of_nat 1) mod 2 = 0) by (cbn; zdiv_lia).
  rewrite H0, H1. cbn [Z.eqb default id].
  assert (Hq : Z.quot ((2 * a + 1) * 10 ^ Z.of_nat 1) 2 = 10 * a + 5).
  { rewrite Z.quot_div_nonneg by (cbn; lia). cbn. zdiv_lia. }
  rewrite Hq, (proj2 (Z.ltb_ge _ _)) by lia. rewrite Z.abs_eq by lia.
  assert (Hd : (Z.to_N (10 * a + 5) / 10 ^ N.of_nat 1)%N = Z.to_N a).
  { apply N2Z.inj. rewrite N2Z.inj_div, !Z2N.id by lia. cbn. zdiv_lia. }
  assert (Hr : (Z.to_N (10 * a + 5) mod 10 ^ N.of_nat 1)%N = 5%N).
  { apply N2Z.inj. rewrite N2Z.inj_mod, !Z2N.id by lia. cbn. zdiv_lia. }
  rewrite Hd, Hr. reflexivity.
Qed.

(** [Number] reads [<digits>.5] as that many and a half. *)
Lemma of_string_half (A : N) :
  of_string (digits A ++ ".5")%string = Num (Qred ((Z.of_N A * 10 + 5) # 10)).
Proof.
  destruct (digits_cons A) as (c & r & Hc & Hm).
  unfold of_string. rewrite Hc. change (String c r +:+ ".5") with (String c (r +:+ ".5")).
  cbv beta iota. rewrite Hm.
  change (String c (r +:+ ".5")) with (String c r +:+ ".5"). rewrite <- Hc.
  unfold unsigned_of_string. unfold digits at 1. rewrite split_dot_numeral.
  cbn [split_dot Ascii.eqb Bool.eqb andb]. fold (digits A). rewrite string_app_nil_r.
  rewrite Hc. cbn [String.eqb andb]. rewrite <- Hc, digits_value_digits. reflexivity.
Qed.

(** [Number] reads an integer's numeral back as that integer. *)
Lemma of_string_int_string (z : Z) : of_string (int_string z) = Num (inject_Z z).
Proof.
  unfold int_string. destruct (Z.ltb_spec z 0) as [Hz|Hz].
  - change (("-" ++ digits (Z.to_N (Z.abs z)))%string)
      with (String "-" (digits (Z.to_N (Z.abs z)))).
    unfold of_string. cbn [Ascii.eqb Bool.eqb andb]. rewrite unsigned_of_digits.
    rewrite Z2N.id by lia. rewrite Z.abs_neq by lia.
    change (- inject_Z (- z))%Q with (inject_Z (- - z)). by rewrite Z.opp_involutive, Qred_inject_Z.
  - rewrite string_app_nil_l. destruct (digits_cons (Z.to_N (Z.abs z))) as (c & r & Hc & Hm).
    unfold of_string. rewrite Hc, Hm, <- Hc, unsigned_of_digits.
    rewrite Z2N.id, Z.abs_eq by lia. by rewrite Qred_inject_Z.
Qed.

(** The blur slider's values, multiples of 0.5 from 0, read back through
    [Number(String(v))] as themselves (in lowest terms). *)
Lemma half_string_roundtrip (z : Z) :
  0 <= z -> of_string (to_string (Num (z # 2))) = Num (Qred (z # 2)).
Proof.
  intros Hz. destruct (Z.Even_or_Odd z) as [[b ->]|[b ->]].
  - rewrite to_string_scale0 by zdiv_lia.
    rewrite Z.quot_div_nonneg, Z.mul_comm, Z.div_mul by lia.
    rewrite of_string_int_string, <- (Qred_inject_Z b). f_equal.
    apply Qred_complete. unfold Qeq. cbn. lia.
  - rewrite to_string_half_odd, of_string_half by lia. f_equal.
    apply Qred_complete. unfold Qeq. cbn. rewrite Z2N.id by lia. lia.
Qed.

End JsNum.

#[export] Hint Resolve JsNum.to_uint8_clamp_bounds JsNum.uint8_clamp_bounds : editor.
