(* ===== verification/Grayscale.v ===== *)
(** * Grayscale: the pixel loop of the render routine

    ImageCanvas.tsx lines 54-66: when [grayscale] is set, the routine reads
    the canvas pixels with [getImageData], a [Uint8ClampedArray] of RGBA
    bytes, and runs

      for (let i = 0; i < data.length; i += 4) {
        const avg = (data[i] + data[i + 1] + data[i + 2]) / 3;
        data[i] = avg; data[i + 1] = avg; data[i + 2] = avg;
      }

    The buffer is a [list Z] of bytes.  [gray_loop] is the loop with fuel,
    [gray_chunks] a structural reference reading four bytes at a time, and
    [gray_pixel] the specification on pixels: every channel becomes the
    rounded mean of R, G, B, alpha is kept. *)

From Stdlib Require Import Qabs.
From S2P Require Import Prelude JsNum.

Module Grayscale.
Import JsNum.
Local Open Scope Z_scope.

(** ** The typed array *)

(** [data[i]] read from a [Uint8ClampedArray]: [undefined] out of range,
    which the addition it flows into turns into [NaN]. *)
Definition ta_get (data : list Z) (i : nat) : number :=
  match data !! i with
  | Some v => Num (inject_Z v)
  | None => NaN
  end.

(** [data[i] = v]: the value is converted by ToUint8Clamp; a store out of
    range is dropped, as stdpp's list insert does. *)
Definition ta_set (data : list Z) (i : nat) (v : number) : list Z :=
  <[i := to_uint8_clamp v]> data.

(** ** The loop *)

(** The body at index [i]: the mean is computed from the three reads
    before any store. *)
Definition gray_body (i : nat) (data : list Z) : list Z :=
  let avg := divc (add (add (ta_get data i) (ta_get data (i + 1)))
                       (ta_get data (i + 2))) 3 in
  let data := ta_set data i avg in
  let data := ta_set data (i + 1) avg in
  ta_set data (i + 2) avg.

(** [for (let i = ...; i < data.length; i += 4)] with fuel; [None] when
    the fuel runs out. *)
Fixpoint gray_loop (fuel : nat) (i : nat) (data : list Z) : option (list Z) :=
  match fuel with
  | O => None
  | S fuel' =>
      if Nat.ltb i (length data)
      then gray_loop fuel' (i + 4) (gray_body i data)
      else Some data
  end.

(** The loop as the routine runs it, from [i = 0], with one unit of fuel
    per element and one for the final test: more than enough. *)
Definition grayscale (data : list Z) : option (list Z) :=
  gray_loop (S (length data)) 0 data.

(** ** Reference definitions *)

(** The stored mean of three bytes, computed as the code computes it. *)
Definition avg3 (r g b : Z) : Z :=
  to_uint8_clamp (divc (add (add (Num (inject_Z r)) (Num (inject_Z g)))
                            (Num (inject_Z b))) 3).

(** The loop, four bytes at a time.  A short tail (a buffer whose length is
    not a multiple of 4) goes through the same reads: a missing byte is
    [NaN], whose ToUint8Clamp is 0. *)
Fixpoint gray_chunks (data : list Z) : list Z :=
  match data with
  | r :: g :: b :: a :: rest =>
      let v := avg3 r g b in v :: v :: v :: a :: gray_chunks rest
  | [r; g; b] => let v := avg3 r g b in [v; v; v]
  | [_; _] => [0; 0]
  | [_] => [0]
  | [] => []
  end.

Record pixel := Pixel { pr : Z; pg : Z; pb : Z; pa : Z }.

Fixpoint to_pixels (data : list Z) : list pixel :=
  match data with
  | r :: g :: b :: a :: rest => Pixel r g b a :: to_pixels rest
  | _ => []
  end.

Fixpoint of_pixels (ps : list pixel) : list Z :=
  match ps with
  | [] => []
  | Pixel r g b a :: ps' => r :: g :: b :: a :: of_pixels ps'
  end.

(** The specification: R = G = B = round((R + G + B) / 3), alpha kept. *)
Definition gray_pixel (p : pixel) : pixel :=
  let v := (pr p + pg p + pb p + 1) / 3 in Pixel v v v (pa p).

Definition is_byte (v : Z) : Prop := 0 <= v <= 255.
Definition bytes (data : list Z) : Prop := Forall is_byte data.

(** ** Lemmas *)

Lemma avg3_eq (r g b : Z) : avg3 r g b = uint8_clamp ((r + g + b) # 3).
Proof.
  unfold avg3.
  assert (Hv : num_eq (divc (add (add (Num (inject_Z r)) (Num (inject_Z g))) (Num (inject_Z b))) 3)
                      (Num ((r + g + b) # 3))).
  { cbn. unfold Qeq. cbn. lia. }
  by rewrite Hv.
Qed.

(** The mean of three bytes is their rounded average. *)
Lemma avg3_bytes (r g b : Z) :
  is_byte r -> is_byte g -> is_byte b -> avg3 r g b = (r + g + b + 1) / 3.
Proof.
  unfold is_byte. intros. rewrite avg3_eq. apply uint8_clamp_third. lia.
Qed.

Lemma avg3_byte (r g b : Z) : is_byte (avg3 r g b).
Proof. apply to_uint8_clamp_bounds. Qed.

(** A gray byte is its own mean. *)
Lemma avg3_same (v : Z) : is_byte v -> avg3 v v v = v.
Proof.
  intros Hv. rewrite (avg3_bytes v v v Hv Hv Hv).
  unfold is_byte in Hv. zdiv_lia.
Qed.

(** The body at an index inside the suffix of a buffer only touches the
    suffix. *)
Lemma gray_body_app (pre rest : list Z) :
  gray_body (length pre) (pre ++ rest) = pre ++ gray_body 0 rest.
Proof.
  unfold gray_body, ta_set, ta_get. cbv zeta.
  rewrite <- (Nat.add_0_r (length pre)).
  rewrite <- !Nat.add_assoc.
  rewrite !lookup_app_len, !insert_app_len.
  reflexivity.
Qed.

(** One iteration on four bytes of the suffix. *)
Lemma gray_body_chunk (r g b a : Z) (l : list Z) :
  gray_body 0 (r :: g :: b :: a :: l) =
  avg3 r g b :: avg3 r g b :: avg3 r g b :: a :: l.
Proof. reflexivity. Qed.

(** The loop from the start of a suffix [rest] computes [gray_chunks] on
    it, provided the fuel covers one unit per chunk and the final test. *)
Lemma gray_loop_app (rest pre : list Z) (fuel : nat) :
  (length rest + 4 <= 4 * fuel)%nat ->
  gray_loop fuel (length pre) (pre ++ rest) = Some (pre ++ gray_chunks rest).
Proof.
  revert pre fuel.
  induction rest as [| x | x y | x y z | r g b a l IH] using list4_ind;
    intros pre [|fuel] Hf; cbn [length] in Hf; try lia; cbn [gray_loop];
    rewrite length_app; cbn [length]; zbools; try lia.
  (* the empty suffix: the test fails at once *)
  1: cbn; by rewrite app_nil_r.
  (* a short tail: one iteration, then the test fails *)
  1-3: rewrite gray_body_app; destruct fuel as [|fuel]; [lia|];
    cbn -[Nat.ltb]; rewrite length_app; cbn [length]; zbools; (lia || done).
  (* a whole pixel: one iteration, then the induction hypothesis *)
  rewrite gray_body_app, gray_body_chunk.
  replace (pre ++ _) with ((pre ++ [avg3 r g b; avg3 r g b; avg3 r g b; a]) ++ l)
    by (rewrite <- app_assoc; reflexivity).
  replace (length pre + 4)%nat
    with (length (pre ++ [avg3 r g b; avg3 r g b; avg3 r g b; a]))
    by (rewrite length_app; reflexivity).
  rewrite IH by lia. rewrite <- app_assoc. reflexivity.
Qed.

(** Pixels and flat buffers: a buffer of whole pixels is the flattening
    of its pixels. *)
Lemma of_to_pixels (data : list Z) :
  (length data mod 4 = 0)%nat -> of_pixels (to_pixels data) = data.
Proof.
  induction data as [| | | | r g b a l IH] using list4_ind;
    cbn [length]; try rewrite mod4_S4; intros H; try discriminate; cbn; try done.
  by rewrite IH.
Qed.

Lemma to_of_pixels (ps : list pixel) : to_pixels (of_pixels ps) = ps.
Proof. induction ps as [|[r g b a] ps IH]; cbn; congruence. Qed.

Lemma length_of_pixels (ps : list pixel) : length (of_pixels ps) = (4 * length ps)%nat.
Proof. induction ps as [|[r g b a] ps IH]; cbn; lia. Qed.

Lemma bytes_cons4 (r g b a : Z) (l : list Z) :
  bytes (r :: g :: b :: a :: l) <->
  is_byte r /\ is_byte g /\ is_byte b /\ is_byte a /\ bytes l.
Proof. unfold bytes. rewrite !Forall_cons_iff. tauto. Qed.

(** [gray_chunks] on a buffer of whole pixels of bytes is the
    specification [gray_pixel] applied to every pixel. *)
Lemma gray_chunks_pixels (data : list Z) :
  bytes data -> (length data mod 4 = 0)%nat ->
  gray_chunks data = of_pixels (map gray_pixel (to_pixels data)).
Proof.
  induction data as [| | | | r g b a l IH] using list4_ind;
    cbn [length]; try rewrite mod4_S4; intros Hb Hm; try discriminate; try done.
  apply bytes_cons4 in Hb as (Hr & Hg & Hbb & Ha & Hl).
  cbn -[avg3]. rewrite avg3_bytes, IH by done. reflexivity.
Qed.

(** A pass over an already gray buffer changes nothing. *)
Lemma gray_chunks_idem (data : list Z) : gray_chunks (gray_chunks data) = gray_chunks data.
Proof.
  induction data as [| | | | r g b a l IH] using list4_ind; try done.
  - cbn -[avg3]. by rewrite avg3_same by apply avg3_byte.
  - cbn -[avg3]. by rewrite avg3_same, IH by apply avg3_byte.
Qed.

Lemma gray_chunks_length (data : list Z) : length (gray_chunks data) = length data.
Proof. induction data using list4_ind; cbn; lia. Qed.

(** Per pixel, the loop makes the three colour channels equal and copies
    alpha. *)
Lemma gray_chunks_to_pixels (data : list Z) :
  to_pixels (gray_chunks data) =
  map (fun p => Pixel (avg3 (pr p) (pg p) (pb p)) (avg3 (pr p) (pg p) (pb p))
                      (avg3 (pr p) (pg p) (pb p)) (pa p)) (to_pixels data).
Proof. induction data using list4_ind; cbn -[avg3]; congruence. Qed.

(** ** Theorems *)

(** The pass as the routine runs it computes [gray_chunks]. *)
Lemma grayscale_eq_chunks (data : list Z) : grayscale data = Some (gray_chunks data).
Proof. unfold grayscale. apply (gray_loop_app data []). lia. Qed.

(** C36: The loop terminates on every buffer once the fuel covers one unit per
    four bytes and the final test: it then returns [gray_chunks]. *)
Theorem grayscale_terminates (data : list Z) (fuel : nat) :
  (length data + 4 <= 4 * fuel)%nat -> gray_loop fuel 0 data = Some (gray_chunks data).
Proof. intros Hf. exact (gray_loop_app data [] fuel Hf). Qed.

Lemma grayscale_terminates_witness :
  gray_loop 3 0 [10; 20; 31; 255; 0; 0; 2; 7] = Some (gray_chunks [10; 20; 31; 255; 0; 0; 2; 7]).
Proof. apply grayscale_terminates. cbn. lia. Defined.


Lemma gray_chunks_bytes (data : list Z) : bytes data -> bytes (gray_chunks data).
Proof.
  unfold bytes. induction data as [| | | | r g b a l IH] using list4_ind;
    intros H; cbn -[avg3]; repeat constructor; try apply avg3_byte; try (unfold is_byte; lia).
  all: apply bytes_cons4 in H as (_ & _ & _ & Ha & Hl); unfold is_byte in Ha;
    first [lia | by apply IH].
Qed.

Example grayscale_example :
  grayscale [10; 20; 31; 255; 0; 0; 2; 7] = Some [20; 20; 20; 255; 1; 1; 1; 7].
Proof. vm_compute. reflexivity. Qed.

(** C5: on a pixel buffer (bytes, whole RGBA pixels, as getImageData
    returns), the loop of ImageCanvas.tsx terminates and sets R, G and B of
    every pixel to round((R + G + B) / 3), keeping alpha. *)
Theorem grayscale_spec (data : list Z) :
  bytes data -> (length data mod 4 = 0)%nat ->
  grayscale data = Some (of_pixels (map gray_pixel (to_pixels data))).
Proof.
  intros Hb Hm. rewrite grayscale_eq_chunks. f_equal. by apply gray_chunks_pixels.
Qed.

Lemma grayscale_spec_witness :
  grayscale [10; 20; 31; 255] = Some (of_pixels (map gray_pixel (to_pixels [10; 20; 31; 255]))).
Proof.
  apply grayscale_spec; [repeat constructor; unfold is_byte; lia | reflexivity].
Defined.

(** C28: running the grayscale pass on its own output returns that output
    unchanged: the pass is idempotent, on every buffer. *)
Theorem grayscale_idempotent (data : list Z) :
  (grayscale data ≫= grayscale) = grayscale data.
Proof.
  rewrite grayscale_eq_chunks.
  change (grayscale (gray_chunks data) = Some (gray_chunks data)).
  by rewrite grayscale_eq_chunks, gray_chunks_idem.
Qed.

(** C37: the pass keeps the buffer's length and its bytes in range, makes
    the three colour channels of every pixel equal and leaves every alpha
    byte as it was. *)
Theorem grayscale_channels (data out : list Z) :
  grayscale data = Some out ->
  length out = length data /\ (bytes data -> bytes out) /\
  Forall (fun p => pr p = pg p /\ pg p = pb p) (to_pixels out) /\
  map pa (to_pixels out) = map pa (to_pixels data).
Proof.
  rewrite grayscale_eq_chunks. intros [= <-].
  split; [apply gray_chunks_length|]. split; [apply gray_chunks_bytes|].
  rewrite gray_chunks_to_pixels, Forall_map, map_map. split.
  - apply Forall_forall. cbn. auto.
  - reflexivity.
Qed.

Lemma grayscale_channels_witness :
  grayscale [1; 2; 4; 9] = Some [2; 2; 2; 9] /\
  length [2; 2; 2; 9] = length [1; 2; 4; 9] /\ (bytes [1; 2; 4; 9] -> bytes [2; 2; 2; 9]) /\
  Forall (fun p => pr p = pg p /\ pg p = pb p) (to_pixels [2; 2; 2; 9]) /\
  map pa (to_pixels [2; 2; 2; 9]) = map pa (to_pixels [1; 2; 4; 9]).
Proof.
  assert (H : grayscale [1; 2; 4; 9] = Some [2; 2; 2; 9]) by (vm_compute; reflexivity).
  split; [exact H | exact (grayscale_channels _ _ H)].
Defined.

(** C15: The exact-number model is the code's: the browser divides
    [data[i] + data[i + 1] + data[i + 2]] (an exact integer) by 3 in
    double precision, getting the double nearest the quotient, within
    2^-45 of it.  Any value within 1/6 of the exact mean is stored by the
    [Uint8ClampedArray] as the same byte [avg3] gives, so the bytes the
    code writes are those of the model. *)
Theorem avg3_float_robust (r g b : Z) (q : Q) :
  is_byte r -> is_byte g -> is_byte b ->
  (Qabs (q - ((r + g + b) # 3)) < 1 # 6)%Q ->
  to_uint8_clamp (Num q) = avg3 r g b.
Proof.
  intros Hr Hg Hb Hq. unfold is_byte in *. rewrite avg3_bytes by done.
  apply Qabs_Qlt_condition in Hq as [Hlo Hhi]. destruct q as [n d]. cbn [to_uint8_clamp].
  apply uint8_clamp_round.
  - Z.div_mod_to_equations. lia.
  - unfold Qlt, Qminus, Qplus, Qopp in Hlo, Hhi. cbn in Hlo, Hhi.
    Z.div_mod_to_equations. nia.
Qed.

(** The double nearest [61 / 3], the mean of the pixel [(10, 20, 31)]. *)
Lemma avg3_float_robust_witness :
  is_byte 10 /\ is_byte 20 /\ is_byte 31 /\
  (Qabs ((20333333333333332 # 1000000000000000) - ((10 + 20 + 31) # 3)) < 1 # 6)%Q /\
  to_uint8_clamp (Num (20333333333333332 # 1000000000000000)) = avg3 10 20 31.
Proof.
  assert (Hq : (Qabs ((20333333333333332 # 1000000000000000) - ((10 + 20 + 31) # 3)) < 1 # 6)%Q)
    by (vm_compute; reflexivity).
  split_and!; [unfold is_byte; lia.. | exact Hq |].
  apply avg3_float_robust; [unfold is_byte; lia.. | exact Hq].
Defined.

End Grayscale.
