(* ===== verification/EditState.v ===== *)
(** * EditState: the per-tab edit state of App.tsx

    [ImageState] (App.tsx lines 9-19) with its defaults (lines 21-31), the
    [Partial<ImageState>] that [updateImageState] merges with an object
    spread (line 78), and the well-formedness of a state: the ranges the
    input widgets keep every field in.  [≡] is the sameness of two states
    to the program (numbers compared as values), with the [Proper]
    instances of the operations. *)

From S2P Require Import Prelude JsNum.

Module EditState.
Import JsNum.

Record Position := mkPosition { x : number; y : number }.

(** [currentImage] is a string in the type, but the upload handler stores
    [reader.result as string], which is [null] when the read fails: it is
    [Some url] or [None] for [null]. *)
Record ImageState := mkImageState {
  currentImage : option string;
  brightness : number;
  contrast : number;
  blur : number;
  grayscale : bool;
  overlayText : string;
  textPosition : Position;
  textColor : string;
  fontSize : number;
}.

Definition DEFAULT_IMAGE : string :=
  "https://images.unsplash.com/photo-1682687220742-aba13b6e50ba?auto=format&fit=crop&q=80&w=1000".

Definition defaultImageState : ImageState := {|
  currentImage := Some DEFAULT_IMAGE;
  brightness := Num 0;
  contrast := Num 0;
  blur := Num 0;
  grayscale := false;
  overlayText := "";
  textPosition := mkPosition (Num 50) (Num 50);
  textColor := "#ffffff";
  fontSize := Num 24;
|}.

(** A key of [Partial<ImageState>] with its value. *)
Inductive field :=
| FcurrentImage (v : option string)
| Fbrightness (v : number)
| Fcontrast (v : number)
| Fblur (v : number)
| Fgrayscale (v : bool)
| FoverlayText (v : string)
| FtextPosition (v : Position)
| FtextColor (v : string)
| FfontSize (v : number).

(** [Partial<ImageState>]: the keys the object literal sets, in order. *)
Definition PartialState := list field.

Definition set_field (s : ImageState) (f : field) : ImageState :=
  let 'mkImageState ci b c bl g t p col fs := s in
  match f with
  | FcurrentImage v => mkImageState v b c bl g t p col fs
  | Fbrightness v => mkImageState ci v c bl g t p col fs
  | Fcontrast v => mkImageState ci b v bl g t p col fs
  | Fblur v => mkImageState ci b c v g t p col fs
  | Fgrayscale v => mkImageState ci b c bl v t p col fs
  | FoverlayText v => mkImageState ci b c bl g v p col fs
  | FtextPosition v => mkImageState ci b c bl g t v col fs
  | FtextColor v => mkImageState ci b c bl g t p v fs
  | FfontSize v => mkImageState ci b c bl g t p col v
  end.

(** [{ ...s, ...u }]: the keys of [u], in order, replace those of [s]. *)
Definition merge (s : ImageState) (u : PartialState) : ImageState :=
  fold_left set_field u s.

Infix "⊲" := merge (at level 50, left associativity) : editor_scope.

(** ** Well-formedness: the widget ranges *)

(** A finite number [q] with [lo <= q <= hi] that is a multiple of [step]
    above [lo], as a range input with these attributes produces. *)
Definition on_range (lo hi : Z) (step : Q) (v : number) : Prop :=
  match v with
  | Num q => (inject_Z lo <= q <= inject_Z hi)%Q /\
             exists k : Z, (q == inject_Z lo + inject_Z k * step)%Q
  | NaN => False
  end.

Definition wf_state (s : ImageState) : Prop :=
  on_range (-100) 100 1 (brightness s) /\
  on_range (-100) 100 1 (contrast s) /\
  on_range 0 10 (1 # 2) (blur s) /\
  on_range 12 72 1 (fontSize s) /\
  on_range 0 100 1 (x (textPosition s)) /\
  on_range 0 100 1 (y (textPosition s)).

(** The value of a key is one its widget can produce: the update keeps a
    well-formed state well-formed. *)
Definition field_ok (f : field) : Prop :=
  match f with
  | Fbrightness v | Fcontrast v => on_range (-100) 100 1 v
  | Fblur v => on_range 0 10 (1 # 2) v
  | FfontSize v => on_range 12 72 1 v
  | FtextPosition p => on_range 0 100 1 (x p) /\ on_range 0 100 1 (y p)
  | FcurrentImage _ | Fgrayscale _ | FoverlayText _ | FtextColor _ => True
  end.

(** ** The same state

    Two states are the same to the program when their fields are equal,
    numbers compared as values ([num_eq]): [0.5] kept as [1/2] or as
    [5/10] renders, merges and draws alike. *)

#[export] Instance Position_equiv : Equiv Position := fun p q =>
  num_eq (x p) (x q) /\ num_eq (y p) (y q).

#[export] Instance ImageState_equiv : Equiv ImageState := fun s t =>
  currentImage s = currentImage t /\ num_eq (brightness s) (brightness t) /\
  num_eq (contrast s) (contrast t) /\ num_eq (blur s) (blur t) /\
  grayscale s = grayscale t /\ overlayText s = overlayText t /\
  textPosition s ≡ textPosition t /\ textColor s = textColor t /\
  num_eq (fontSize s) (fontSize t).

(** ** Lemmas *)

Local Open Scope editor_scope.

Lemma merge_nil (s : ImageState) : s ⊲ [] = s.
Proof. reflexivity. Qed.

Lemma merge_cons (s : ImageState) (f : field) (u : PartialState) :
  s ⊲ (f :: u) = set_field s f ⊲ u.
Proof. reflexivity. Qed.

Lemma merge_app (s : ImageState) (u1 u2 : PartialState) : s ⊲ (u1 ++ u2) = (s ⊲ u1) ⊲ u2.
Proof. apply fold_left_app. Qed.

Lemma set_field_wf (s : ImageState) (f : field) :
  wf_state s -> field_ok f -> wf_state (set_field s f).
Proof. destruct s, f; cbn; unfold wf_state; cbn; tauto. Qed.

(** Merging updates that the widgets produce keeps a state well-formed. *)
Lemma merge_wf (s : ImageState) (u : PartialState) :
  wf_state s -> Forall field_ok u -> wf_state (s ⊲ u).
Proof.
  intros Hs Hu. revert s Hs.
  induction Hu as [|f u Hf Hu IH]; intros s Hs; [done|].
  rewrite merge_cons. by apply IH, set_field_wf.
Qed.

Lemma default_wf : wf_state defaultImageState.
Proof.
  unfold wf_state, on_range; cbn.
  repeat split; try (unfold Qle; cbn; lia).
  - exists 100%Z. reflexivity.
  - exists 100%Z. reflexivity.
  - exists 0%Z. reflexivity.
  - exists 12%Z. reflexivity.
  - exists 50%Z. reflexivity.
  - exists 50%Z. reflexivity.
Qed.

#[export] Instance Position_equivalence : Equivalence (≡@{Position}).
Proof.
  split.
  - intros p. split; reflexivity.
  - intros p q [??]. split; by symmetry.
  - intros p q r [??] [??]. split; by etrans.
Qed.

#[export] Instance ImageState_equivalence : Equivalence (≡@{ImageState}).
Proof.
  split.
  - intros s. split_and!; reflexivity.
  - intros s t (?&?&?&?&?&?&?&?&?). split_and!; by symmetry.
  - intros s t u (?&?&?&?&?&?&?&?&?) (?&?&?&?&?&?&?&?&?). split_and!; etrans; eassumption.
Qed.

#[export] Instance mkPosition_proper : Proper (num_eq ==> num_eq ==> (≡)) mkPosition.
Proof. by split. Qed.

#[export] Instance set_field_proper : Proper ((≡) ==> (=) ==> (≡)) set_field.
Proof.
  intros [] [] H f ? <-. destruct H as (?&?&?&?&?&?&?&?&?); cbn in *.
  destruct f; split_and!; cbn; first [done | reflexivity].
Qed.

#[export] Instance merge_proper : Proper ((≡) ==> (=) ==> (≡)) merge.
Proof.
  intros s t H u ? <-. revert s t H.
  induction u as [|f u IH]; intros s t H; [done|]. rewrite !merge_cons. apply IH. by rewrite H.
Qed.

#[export] Instance on_range_proper (lo hi : Z) (step : Q) : Proper (num_eq ==> iff) (on_range lo hi step).
Proof. intros [a|] [b|] H; cbn in H |- *; try done. by setoid_rewrite H. Qed.

#[export] Instance wf_state_proper : Proper ((≡) ==> iff) wf_state.
Proof.
  intros s t (_&Hb&Hc&Hbl&_&_&[Hx Hy]&_&Hf). unfold wf_state.
  by rewrite Hb, Hc, Hbl, Hf, Hx, Hy.
Qed.

End EditState.

#[export] Hint Resolve EditState.default_wf EditState.merge_wf EditState.set_field_wf : editor.
