(* ===== verification/Platform.v ===== *)
(** * Platform: what the browser provides to the program

    The code calls into the browser for everything that is not its own
    logic: decoding an image ([new Image()], [image.src = url],
    [image.onload]), drawing it under a CSS filter ([ctx.drawImage]),
    rasterising text ([ctx.strokeText], [ctx.fillText]) and reading a file
    ([FileReader.readAsDataURL]).  These are interfaces: type classes whose
    laws are all the components' theorems assume of them.  A pixel buffer
    is a [list Z] of RGBA bytes, [4 * width * height] long. *)

From S2P Require Import Prelude JsNum Grayscale EditState.

Module Platform.
Import JsNum.

(** The decoded image: [decode url] is [Some img] when [onload] fires for
    [image.src = url], [None] when [onerror] fires instead (a URL that
    does not resolve, a format the browser cannot decode, or a server
    refusing the [crossOrigin = "anonymous"] request).  [image.width] and
    [image.height] of an image outside the document are its natural
    size. *)
Class ImageDecoder := {
  image : Type;
  decode : string -> option image;
  natural_width : image -> Z;
  natural_height : image -> Z;
  natural_width_nonneg : forall i, (0 <= natural_width i)%Z;
  natural_height_nonneg : forall i, (0 <= natural_height i)%Z;
}.

(** The attributes of a [CanvasRenderingContext2D] the code sets. *)
Record Context := mkContext {
  filter : string;
  fillStyle : string;
  strokeStyle : string;
  font : string;
  textAlign : string;
  textBaseline : string;
  lineWidth : Q;
}.

(** Their initial values, which setting the canvas size restores. *)
Definition default_context : Context := {|
  filter := "none";
  fillStyle := "#000000";
  strokeStyle := "#000000";
  font := "10px sans-serif";
  textAlign := "start";
  textBaseline := "alphabetic";
  lineWidth := 1;
|}.

(** Rasterisation: [draw_image f img w h data] is [drawImage(img, 0, 0)]
    under filter [f] onto a [w] by [h] buffer; [stroke_text] and
    [fill_text] draw a string at [(x, y)] with the context's attributes.
    The laws are those of the bitmap, a [Uint8ClampedArray] of the
    canvas's size: drawing keeps its length and stores bytes. *)
Class Canvas2D `{ImageDecoder} := {
  draw_image : string -> image -> Z -> Z -> list Z -> list Z;
  stroke_text : Context -> string -> Q -> Q -> Z -> Z -> list Z -> list Z;
  fill_text : Context -> string -> Q -> Q -> Z -> Z -> list Z -> list Z;
  draw_image_length : forall f i w h d, length (draw_image f i w h d) = length d;
  draw_image_bytes : forall f i w h d,
    Grayscale.bytes d -> Grayscale.bytes (draw_image f i w h d);
  stroke_text_length : forall c t x y w h d, length (stroke_text c t x y w h d) = length d;
  fill_text_length : forall c t x y w h d, length (fill_text c t x y w h d) = length d;
}.

(** [reader.readAsDataURL(file)]: [reader.result] when [onloadend] fires,
    a data URL, or [null] ([None]) when the read failed. *)
Class FileAPI := {
  file : Type;
  read_as_data_url : file -> option string;
}.

(** ** A model browser

    A concrete instance of the interfaces, on which the theorems' witnesses
    run: an image is its size and pixels, [drawImage] copies the pixels
    (clamped to bytes) when the sizes agree and ignores the filter, text is
    not rasterised, and a file is its data URL or a failed read. *)
Module ModelBrowser.

Definition model_image : Type := (Z * Z * list Z)%type.

(** The data URL a read of the sample upload produces. *)
Definition sample_png : string := "data:image/png;base64,iVBORw0KGgo=".

Definition model_decode (url : string) : option model_image :=
  if String.eqb url EditState.DEFAULT_IMAGE then Some (1%Z, 1%Z, [90; 120; 200; 255]%Z)
  else if String.eqb url sample_png then Some (2%Z, 1%Z, [200; 40; 10; 255; 0; 100; 51; 128]%Z)
  else if String.eqb url "red.png" then Some (1%Z, 1%Z, [255; 0; 0; 255]%Z)
  else if String.eqb url "two.png" then Some (2%Z, 1%Z, [10; 20; 31; 255; 0; 0; 2; 7]%Z)
  else if String.eqb url "empty.svg" then Some (0%Z, 0%Z, [])
  else None.

Definition clamp_byte (v : Z) : Z := Z.max 0 (Z.min 255 v).

#[export] Program Instance model_decoder : ImageDecoder := {|
  image := model_image;
  decode := model_decode;
  natural_width i := Z.max 0 (fst (fst i));
  natural_height i := Z.max 0 (snd (fst i));
|}.
Next Obligation. cbn. lia. Qed.
Next Obligation. cbn. lia. Qed.

Definition model_draw (f : string) (i : model_image) (w h : Z) (d : list Z) : list Z :=
  if Nat.eqb (length (snd i)) (length d) then map clamp_byte (snd i) else d.

#[export] Program Instance model_canvas : Canvas2D := {|
  draw_image := model_draw;
  stroke_text c t x y w h d := d;
  fill_text c t x y w h d := d;
|}.
Next Obligation.
  intros. unfold model_draw. destruct (Nat.eqb_spec (length (snd i)) (length d)); [|done].
  by rewrite length_map.
Qed.
Next Obligation.
  unfold model_draw. destruct (Nat.eqb _ _); [|done].
  apply Forall_map, Forall_forall. intros v _. unfold Grayscale.is_byte, clamp_byte. lia.
Qed.

#[export] Instance model_files : FileAPI := {|
  file := option string;
  read_as_data_url f := f;
|}.

End ModelBrowser.

End Platform.
