(* ===== verification/Canvas.v ===== *)
(** * Canvas: the render routine of ImageCanvas.tsx

    The [<canvas>] element and its 2D context are a record [Canvas]: the
    size, the context attributes, the pixel buffer and the log of the draw
    calls made since the bitmap was last reset.  The routine's statements
    are operations of a small state and error monad [M] over it (an
    operation may throw a DOMException, as [getImageData] does on an empty
    canvas).  [onload] is the body of [image.onload] (lines 39-87) up to the
    call of [onImageLoad], which the orchestrator makes when the body
    returns normally. *)

From S2P Require Import Prelude JsNum Grayscale EditState Platform.

Module Canvas.
Import JsNum Platform.

Declare Scope canvas_scope.
Delimit Scope canvas_scope with canvas.

(** The draw calls, with the attributes they use. *)
Inductive draw_op :=
| DrawImage (f : string)
| PutImageData
| StrokeText (t : string) (x y : Q) (c : Context)
| FillText (t : string) (x y : Q) (c : Context).

Record Canvas := mkCanvas {
  cv_width : Z;
  cv_height : Z;
  cv_ctx : Context;
  cv_data : list Z;
  cv_log : list draw_op;
}.

Inductive exn :=
| IndexSizeError
| OutOfFuel.

(** ** The state and error monad *)

Definition M (A : Type) : Type := Canvas -> (A + exn) * Canvas.

Definition ret {A} (a : A) : M A := fun cv => (inl a, cv).

Definition bind {A B} (m : M A) (k : A -> M B) : M B := fun cv =>
  match m cv with
  | (inl a, cv') => k a cv'
  | (inr e, cv') => (inr e, cv')
  end.

Definition throw {A} (e : exn) : M A := fun cv => (inr e, cv).
Definition get : M Canvas := fun cv => (inl cv, cv).
Definition modify (f : Canvas -> Canvas) : M unit := fun cv => (inl tt, f cv).

Notation "x <- m ;; k" := (bind m (fun x => k))
  (at level 100, m at next level, right associativity) : canvas_scope.
Notation "m ;; k" := (bind m (fun _ => k))
  (at level 100, right associativity) : canvas_scope.

Local Open Scope canvas_scope.

(** ** The canvas operations the routine uses *)

(** A transparent black buffer of [w] by [h] pixels. *)
Definition blank (w h : Z) : list Z := repeat 0%Z (Z.to_nat (4 * w * h)).

(** Setting [canvas.width] or [canvas.height] resets the bitmap to
    transparent black and the context to its initial state. *)
Definition reset (w h : Z) : Canvas := mkCanvas w h default_context (blank w h) [].

Definition set_width (w : Z) : M unit := modify (fun cv => reset w (cv_height cv)).
Definition set_height (h : Z) : M unit := modify (fun cv => reset (cv_width cv) h).

(** [ctx.clearRect(0, 0, canvas.width, canvas.height)]. *)
Definition clear_rect : M unit :=
  modify (fun cv => mkCanvas (cv_width cv) (cv_height cv) (cv_ctx cv)
                             (blank (cv_width cv) (cv_height cv)) (cv_log cv)).

(** The context's attribute setters.  The browser ignores a [font],
    [fillStyle] or [filter] value that does not parse (and serialises
    colours); the values the routine assigns parse in every well-formed
    state (finite numbers in the widgets' ranges, a colour picker's
    ["#rrggbb"]), so the model stores them as given. *)
Definition set_ctx (f : Context -> Context) : M unit :=
  modify (fun cv => mkCanvas (cv_width cv) (cv_height cv) (f (cv_ctx cv)) (cv_data cv) (cv_log cv)).

Definition set_filter (s : string) : M unit :=
  set_ctx (fun c => mkContext s (fillStyle c) (strokeStyle c) (font c) (textAlign c) (textBaseline c) (lineWidth c)).
Definition set_fillStyle (s : string) : M unit :=
  set_ctx (fun c => mkContext (filter c) s (strokeStyle c) (font c) (textAlign c) (textBaseline c) (lineWidth c)).
Definition set_strokeStyle (s : string) : M unit :=
  set_ctx (fun c => mkContext (filter c) (fillStyle c) s (font c) (textAlign c) (textBaseline c) (lineWidth c)).
Definition set_font (s : string) : M unit :=
  set_ctx (fun c => mkContext (filter c) (fillStyle c) (strokeStyle c) s (textAlign c) (textBaseline c) (lineWidth c)).
Definition set_textAlign (s : string) : M unit :=
  set_ctx (fun c => mkContext (filter c) (fillStyle c) (strokeStyle c) (font c) s (textBaseline c) (lineWidth c)).
Definition set_textBaseline (s : string) : M unit :=
  set_ctx (fun c => mkContext (filter c) (fillStyle c) (strokeStyle c) (font c) (textAlign c) s (lineWidth c)).

(** [ctx.lineWidth = v]: zero, negative and NaN values are ignored. *)
Definition set_lineWidth (v : number) : M unit :=
  match v with
  | Num q => if Qle_bool q 0 then ret tt
             else set_ctx (fun c => mkContext (filter c) (fillStyle c) (strokeStyle c) (font c) (textAlign c) (textBaseline c) q)
  | NaN => ret tt
  end.

Section WithPlatform.
Context `{Canvas2D}.

(** [ctx.drawImage(image, 0, 0)] under the current filter. *)
Definition draw_image_op (img : image) : M unit :=
  modify (fun cv => mkCanvas (cv_width cv) (cv_height cv) (cv_ctx cv)
    (draw_image (filter (cv_ctx cv)) img (cv_width cv) (cv_height cv) (cv_data cv))
    (cv_log cv ++ [DrawImage (filter (cv_ctx cv))])).

(** [ctx.getImageData(0, 0, canvas.width, canvas.height).data]: a copy of
    the buffer; an [IndexSizeError] when the width or height is 0. *)
Definition get_image_data : M (list Z) := fun cv =>
  if Z.eqb (cv_width cv) 0 || Z.eqb (cv_height cv) 0
  then (inr IndexSizeError, cv) else (inl (cv_data cv), cv).

(** [ctx.putImageData(imageData, 0, 0)]: the buffer is replaced, with no
    filter or compositing. *)
Definition put_image_data (d : list Z) : M unit :=
  modify (fun cv => mkCanvas (cv_width cv) (cv_height cv) (cv_ctx cv) d (cv_log cv ++ [PutImageData])).

(** [ctx.strokeText(t, x, y)] and [ctx.fillText(t, x, y)]: nothing is drawn
    when a coordinate is NaN. *)
Definition stroke_text_op (t : string) (x y : number) : M unit :=
  match x, y with
  | Num qx, Num qy =>
      modify (fun cv => mkCanvas (cv_width cv) (cv_height cv) (cv_ctx cv)
        (stroke_text (cv_ctx cv) t qx qy (cv_width cv) (cv_height cv) (cv_data cv))
        (cv_log cv ++ [StrokeText t qx qy (cv_ctx cv)]))
  | _, _ => ret tt
  end.

Definition fill_text_op (t : string) (x y : number) : M unit :=
  match x, y with
  | Num qx, Num qy =>
      modify (fun cv => mkCanvas (cv_width cv) (cv_height cv) (cv_ctx cv)
        (fill_text (cv_ctx cv) t qx qy (cv_width cv) (cv_height cv) (cv_data cv))
        (cv_log cv ++ [FillText t qx qy (cv_ctx cv)]))
  | _, _ => ret tt
  end.

(** ** The routine *)

(** [ImageCanvasProps] (lines 3-14) without the [onImageLoad] callback,
    which the orchestrator models.  [imageUrl] is [None] for [null]. *)
Record Props := mkProps {
  imageUrl : option string;
  brightness : number;
  contrast : number;
  blur : number;
  grayscale : bool;
  overlayText : string;
  textPosition : EditState.Position;
  textColor : string;
  fontSize : number;
}.

(** [`brightness(${100 + brightness}%) contrast(${100 + contrast}%) blur(${blur}px)`]. *)
Definition filter_string (b c bl : number) : string :=
  ("brightness(" ++ to_string (add (Num 100) b) ++ "%) contrast("
     ++ to_string (add (Num 100) c) ++ "%) blur(" ++ to_string bl ++ "px)")%string.

(** [(canvas.width * textPosition.x) / 100]. *)
Definition text_anchor (size : Z) (pos : number) : number :=
  divc (mul (Num (inject_Z size)) pos) 100.

(** [if (overlayText)]: a string is truthy when it is not empty. *)
Definition string_truthy (s : string) : bool :=
  match s with EmptyString => false | _ => true end.

(** Lines 68-84: the text overlay. *)
Definition draw_overlay (p : Props) : M unit :=
  set_filter "none" ;;
  set_fillStyle (textColor p) ;;
  set_font (to_string (fontSize p) ++ "px Arial")%string ;;
  set_textAlign "center" ;;
  set_textBaseline "middle" ;;
  cv <- get ;;
  let x := text_anchor (cv_width cv) (EditState.x (textPosition p)) in
  let y := text_anchor (cv_height cv) (EditState.y (textPosition p)) in
  set_strokeStyle "black" ;;
  set_lineWidth (divc (fontSize p) 8) ;;
  stroke_text_op (overlayText p) x y ;;
  fill_text_op (overlayText p) x y.

(** Lines 54-66: the grayscale pass over the pixel buffer. *)
Definition apply_grayscale : M unit :=
  data <- get_image_data ;;
  match Grayscale.grayscale data with
  | Some d => put_image_data d
  | None => throw OutOfFuel
  end.

(** Lines 40-51: size the canvas to the image, clear it, set the filter
    and draw the image. *)
Definition draw_filtered (img : image) (f : string) : M unit :=
  set_width (natural_width img) ;;
  set_height (natural_height img) ;;
  clear_rect ;;
  set_filter f ;;
  draw_image_op img.

(** [image.onload] (lines 39-85), up to [onImageLoad()]. *)
Definition onload (p : Props) (img : image) : M unit :=
  draw_filtered img (filter_string (brightness p) (contrast p) (blur p)) ;;
  (if grayscale p then apply_grayscale else ret tt) ;;
  (if string_truthy (overlayText p) then draw_overlay p else ret tt).

(** ** What the routine draws *)

(** The line width after [ctx.lineWidth = v] from [old]. *)
Definition line_width_after (v : number) (old : Q) : Q :=
  match v with
  | Num q => if Qle_bool q 0 then old else q
  | NaN => old
  end.

Definition base_context (f : string) : Context :=
  mkContext f "#000000" "#000000" "10px sans-serif" "start" "alphabetic" 1.

(** The context after the overlay's assignments, from a line width [old]. *)
Definition overlay_context (p : Props) (old : Q) : Context :=
  mkContext "none" (textColor p) "black" (to_string (fontSize p) ++ "px Arial")%string
            "center" "middle" (line_width_after (divc (fontSize p) 8) old).

(** The canvas the routine leaves when it completes: the image drawn
    under the filter string, grayed when asked, then the text stroked and
    filled at its anchor. *)
Definition render_spec (p : Props) (img : image) : Canvas :=
  let w := natural_width img in
  let h := natural_height img in
  let f := filter_string (brightness p) (contrast p) (blur p) in
  let drawn := draw_image f img w h (blank w h) in
  let pixels := if grayscale p then Grayscale.gray_chunks drawn else drawn in
  let log := DrawImage f :: (if grayscale p then [PutImageData] else []) in
  if string_truthy (overlayText p) then
    let c := overlay_context p 1 in
    let t := overlayText p in
    match text_anchor w (EditState.x (textPosition p)),
          text_anchor h (EditState.y (textPosition p)) with
    | Num qx, Num qy =>
        mkCanvas w h c (fill_text c t qx qy w h (stroke_text c t qx qy w h pixels))
                 ((log ++ [StrokeText t qx qy c]) ++ [FillText t qx qy c])
    | _, _ => mkCanvas w h c pixels log
    end
  else mkCanvas w h (base_context f) pixels log.

(** A text draw call lands inside a [w] by [h] canvas: its anchor is
    within [0..w] by [0..h]. *)
Definition text_op_inside (w h : Z) (op : draw_op) : Prop :=
  match op with
  | StrokeText _ qx qy _ | FillText _ qx qy _ =>
      (0 <= qx <= inject_Z w)%Q /\ (0 <= qy <= inject_Z h)%Q
  | DrawImage _ | PutImageData => True
  end.

(** ** Lemmas on the monad and the steps *)

Lemma bind_inl {A B} (m : M A) (k : A -> M B) cv a cv' :
  m cv = (inl a, cv') -> bind m k cv = k a cv'.
Proof. unfold bind. by intros ->. Qed.

Lemma bind_inr {A B} (m : M A) (k : A -> M B) cv e cv' :
  m cv = (inr e, cv') -> bind m k cv = (inr e, cv').
Proof. unfold bind. by intros ->. Qed.

Lemma draw_filtered_run (img : image) (f : string) (cv : Canvas) :
  draw_filtered img f cv =
  (inl tt, mkCanvas (natural_width img) (natural_height img) (base_context f)
             (draw_image f img (natural_width img) (natural_height img)
                (blank (natural_width img) (natural_height img)))
             [DrawImage f]).
Proof. reflexivity. Qed.

Lemma apply_grayscale_run (w h : Z) (c : Context) (d : list Z) (l : list draw_op) :
  w <> 0%Z -> h <> 0%Z ->
  apply_grayscale (mkCanvas w h c d l) =
  (inl tt, mkCanvas w h c (Grayscale.gray_chunks d) (l ++ [PutImageData])).
Proof.
  intros Hw Hh. unfold apply_grayscale, bind, get_image_data. cbn [cv_width cv_height cv_data].
  rewrite (proj2 (Z.eqb_neq w 0) Hw), (proj2 (Z.eqb_neq h 0) Hh).
  cbn -[Grayscale.grayscale]. by rewrite Grayscale.grayscale_eq_chunks.
Qed.

Lemma apply_grayscale_empty (w h : Z) (c : Context) (d : list Z) (l : list draw_op) :
  (w = 0 \/ h = 0)%Z ->
  apply_grayscale (mkCanvas w h c d l) = (inr IndexSizeError, mkCanvas w h c d l).
Proof.
  intros Hwh. unfold apply_grayscale, bind, get_image_data. cbn [cv_width cv_height].
  by destruct Hwh as [-> | ->]; rewrite ?Z.eqb_refl, ?orb_true_r.
Qed.

Lemma draw_overlay_run (p : Props) (w h : Z) (c : Context) (d : list Z) (l : list draw_op) :
  draw_overlay p (mkCanvas w h c d l) =
  (inl tt,
   let c' := overlay_context p (lineWidth c) in
   let t := overlayText p in
   match text_anchor w (EditState.x (textPosition p)),
         text_anchor h (EditState.y (textPosition p)) with
   | Num qx, Num qy =>
       mkCanvas w h c' (fill_text c' t qx qy w h (stroke_text c' t qx qy w h d))
                ((l ++ [StrokeText t qx qy c']) ++ [FillText t qx qy c'])
   | _, _ => mkCanvas w h c' d l
   end).
Proof.
  unfold draw_overlay, overlay_context, line_width_after, set_lineWidth.
  cbn [bind get set_filter set_fillStyle set_font set_textAlign set_textBaseline
       set_strokeStyle set_ctx modify cv_width cv_height cv_ctx cv_data cv_log
       filter fillStyle strokeStyle font textAlign textBaseline lineWidth].
  destruct (divc (fontSize p) 8) as [q|]; [destruct (Qle_bool q 0)|];
    destruct (text_anchor w _), (text_anchor h _);
    reflexivity.
Qed.

Lemma blank_bytes (w h : Z) : Grayscale.bytes (blank w h).
Proof. apply Forall_forall. intros v Hv. apply repeat_spec in Hv as ->. unfold Grayscale.is_byte. lia. Qed.

(** A blank buffer holds whole pixels. *)
Lemma blank_length_mod4 (w h : Z) :
  (0 <= w)%Z -> (0 <= h)%Z -> (length (blank w h) mod 4 = 0)%nat.
Proof.
  intros Hw Hh. unfold blank. rewrite repeat_length.
  rewrite <- Z.mul_assoc, Z2Nat.inj_mul by lia.
  rewrite Nat.mul_comm. apply Nat.Div0.mod_mul.
Qed.

(** A strictly positive line width is taken. *)
Lemma line_width_after_pos (q old : Q) :
  (0 < q)%Q -> line_width_after (divc (Num q) 8) old = (q / inject_Z 8)%Q.
Proof.
  intros Hq. cbn. destruct (Qle_bool _ _) eqn:E; [|done].
  apply Qle_bool_iff in E.
  assert (0 < q / inject_Z 8)%Q by (apply Qlt_shift_div_l; [reflexivity | lra]).
  lra.
Qed.

Lemma string_truthy_nonempty (s : string) : s <> EmptyString -> string_truthy s = true.
Proof. by destruct s. Qed.

(** A position on the sliders' 0..100 scale anchors the text inside a
    canvas of any size. *)
Lemma text_anchor_inside (size : Z) (pos : number) (q : Q) :
  (0 <= size)%Z -> EditState.on_range 0 100 1 pos -> text_anchor size pos = Num q ->
  (0 <= q <= inject_Z size)%Q.
Proof.
  destruct pos as [p|]; [|done]. intros Hs [[Hlo Hhi] _] [= <-].
  assert (0 <= inject_Z size)%Q by (change (inject_Z 0 <= inject_Z size)%Q; rewrite <- Zle_Qle; exact Hs).
  change (inject_Z 0) with 0%Q in Hlo. change (inject_Z 100) with 100%Q in Hhi.
  change (inject_Z (Zpos 100)) with 100%Q. unfold Qdiv. change (/ 100)%Q with (1 # 100)%Q. split; nra.
Qed.

(** ** Theorems *)

(** The routine completes, unless it grays an empty image, and leaves
    exactly the canvas [render_spec] describes. *)
Lemma onload_ok_run (p : Props) (img : image) (cv : Canvas) :
  ~ (grayscale p = true /\ (natural_width img = 0 \/ natural_height img = 0)%Z) ->
  onload p img cv = (inl tt, render_spec p img).
Proof.
  intros Hok. unfold onload.
  erewrite bind_inl by apply draw_filtered_run.
  unfold render_spec. destruct (grayscale p).
  - erewrite bind_inl by (apply apply_grayscale_run; intros Hz; apply Hok; auto).
    destruct (string_truthy _); [apply draw_overlay_run | reflexivity].
  - erewrite bind_inl by reflexivity.
    destruct (string_truthy _); [apply draw_overlay_run | reflexivity].
Qed.

(** C6: The routine's outcome on every input: it throws [IndexSizeError] when
    asked to gray an image of width or height 0, leaving the filtered image
    drawn; otherwise it completes and leaves [render_spec]. *)
Theorem onload_refines (p : Props) (img : image) (cv : Canvas) :
  let w := natural_width img in
  let h := natural_height img in
  let f := filter_string (brightness p) (contrast p) (blur p) in
  onload p img cv =
  if grayscale p && (Z.eqb w 0 || Z.eqb h 0)
  then (inr IndexSizeError,
        mkCanvas w h (base_context f) (draw_image f img w h (blank w h)) [DrawImage f])
  else (inl tt, render_spec p img).
Proof.
  cbv zeta. destruct (grayscale p && _) eqn:E.
  - apply andb_true_iff in E as [Hg Hwh]. unfold onload.
    erewrite bind_inl by apply draw_filtered_run. rewrite Hg.
    erewrite bind_inr; [reflexivity|]. apply apply_grayscale_empty.
    apply orb_true_iff in Hwh as [?%Z.eqb_eq | ?%Z.eqb_eq]; auto.
  - apply onload_ok_run. intros [Hg [Hw | Hh]]; rewrite Hg in E; cbn in E.
    + by rewrite Hw in E.
    + rewrite Hh, orb_true_r in E. discriminate.
Qed.

(** C30: the routine starts from scratch: what it leaves does not depend on
    what the canvas held before ([canvas.width = ...] resets the bitmap
    and the context). *)
Theorem onload_from_scratch (p : Props) (img : image) (cv1 cv2 : Canvas) :
  onload p img cv1 = onload p img cv2.
Proof.
  unfold onload.
  rewrite (bind_inl _ _ cv1 _ _ (draw_filtered_run _ _ cv1)).
  by rewrite (bind_inl _ _ cv2 _ _ (draw_filtered_run _ _ cv2)).
Qed.

(** C31: asked to gray an image of width or height 0, the routine throws
    [IndexSizeError] from [getImageData], so it never reaches
    [onImageLoad()]. *)
Theorem onload_index_size_error (p : Props) (img : image) (cv : Canvas) :
  grayscale p = true -> (natural_width img = 0 \/ natural_height img = 0)%Z ->
  fst (onload p img cv) = inr IndexSizeError.
Proof.
  intros Hg Hwh. unfold onload.
  erewrite bind_inl by apply draw_filtered_run. rewrite Hg.
  by erewrite bind_inr by (apply apply_grayscale_empty; exact Hwh).
Qed.

(** C29: on the grayscale path with no text, the pixels the routine leaves
    are the filtered image's pixels with R = G = B = round((R + G + B) / 3)
    and alpha kept. *)
Theorem onload_grayscale_pixels (p : Props) (img : image) (cv : Canvas) :
  grayscale p = true -> natural_width img <> 0%Z -> natural_height img <> 0%Z ->
  overlayText p = EmptyString ->
  let w := natural_width img in
  let h := natural_height img in
  let drawn := draw_image (filter_string (brightness p) (contrast p) (blur p)) img w h (blank w h) in
  cv_data (snd (onload p img cv)) =
  Grayscale.of_pixels (map Grayscale.gray_pixel (Grayscale.to_pixels drawn)).
Proof.
  intros Hg Hw Hh Ht. cbv zeta.
  rewrite onload_ok_run by (intros [_ [? | ?]]; auto).
  unfold render_spec. rewrite Hg, Ht. cbn [snd cv_data string_truthy].
  apply Grayscale.gray_chunks_pixels.
  - apply draw_image_bytes, blank_bytes.
  - rewrite draw_image_length. apply blank_length_mod4; auto using natural_width_nonneg, natural_height_nonneg.
Qed.

(** C7: with a non-empty text at finite coordinates and a positive font
    size, the routine strokes then fills the text at
    [(width * x / 100, height * y / 100)], after the image draws, with the
    filter reset to ["none"], a black stroke of width [fontSize / 8], the
    text colour as fill, the text centred on the anchor. *)
Theorem onload_text_overlay (p : Props) (img : image) (cv : Canvas) (px py q : Q) :
  ~ (grayscale p = true /\ (natural_width img = 0 \/ natural_height img = 0)%Z) ->
  overlayText p <> EmptyString ->
  EditState.x (textPosition p) = Num px -> EditState.y (textPosition p) = Num py ->
  fontSize p = Num q -> (0 < q)%Q ->
  let X := (inject_Z (natural_width img) * px / inject_Z 100)%Q in
  let Y := (inject_Z (natural_height img) * py / inject_Z 100)%Q in
  exists c,
    cv_log (snd (onload p img cv)) =
      (DrawImage (filter_string (brightness p) (contrast p) (blur p))
         :: (if grayscale p then [PutImageData] else []))
      ++ [StrokeText (overlayText p) X Y c] ++ [FillText (overlayText p) X Y c] /\
    filter c = "none"%string /\ strokeStyle c = "black"%string /\
    fillStyle c = textColor p /\ lineWidth c = (q / inject_Z 8)%Q /\
    textAlign c = "center"%string /\ textBaseline c = "middle"%string /\
    font c = (to_string (Num q) ++ "px Arial")%string.
Proof.
  intros Hok Ht Hx Hy Hf Hq. cbv zeta.
  rewrite onload_ok_run by exact Hok.
  unfold render_spec. rewrite (string_truthy_nonempty _ Ht), Hx, Hy.
  exists (overlay_context p 1). cbn [snd cv_log text_anchor divc mul].
  rewrite <- app_assoc. unfold overlay_context.
  cbn [filter strokeStyle fillStyle lineWidth textAlign textBaseline font].
  rewrite Hf, line_width_after_pos by exact Hq.
  repeat split.
Qed.

(** C27: For integer brightness [b] and contrast [c], the filter string is
    [brightness(<100 + b>%) contrast(<100 + c>%) blur(<blur>px)] with the
    decimal numerals of [100 + b] and [100 + c]. *)
Theorem filter_string_integers (b c : Z) (bl : number) :
  filter_string (Num (inject_Z b)) (Num (inject_Z c)) bl =
  ("brightness(" ++ int_string (100 + b) ++ "%) contrast(" ++ int_string (100 + c)
     ++ "%) blur(" ++ to_string bl ++ "px)")%string.
Proof.
  unfold filter_string. cbn [add]. rewrite !to_string_integer by reflexivity.
  cbn [Qnum Qplus inject_Z]. by rewrite !Z.mul_1_r.
Qed.

(** C14: The text is drawn inside the canvas: when the position is on the
    sliders' 0..100 scale, every [strokeText] and [fillText] the routine
    makes, on any image and from any canvas, is anchored within the
    canvas it leaves. *)
Theorem onload_text_inside (p : Props) (img : image) (cv : Canvas) :
  EditState.on_range 0 100 1 (EditState.x (textPosition p)) ->
  EditState.on_range 0 100 1 (EditState.y (textPosition p)) ->
  let cv' := snd (onload p img cv) in
  Forall (text_op_inside (cv_width cv') (cv_height cv')) (cv_log cv').
Proof.
  intros Hx Hy. cbv zeta.
  destruct (decide (grayscale p = true /\ (natural_width img = 0 \/ natural_height img = 0)%Z))
    as [[Hg Hwh]|Hok].
  - unfold onload. erewrite bind_inl by apply draw_filtered_run. rewrite Hg.
    erewrite bind_inr by (apply apply_grayscale_empty; exact Hwh). repeat constructor.
  - rewrite (onload_ok_run _ _ _ Hok). unfold render_spec. cbv zeta.
    pose proof (natural_width_nonneg img) as Hw. pose proof (natural_height_nonneg img) as Hh.
    destruct (string_truthy _); [|cbn; by destruct (grayscale p); repeat constructor].
    destruct (text_anchor (natural_width img) (EditState.x (textPosition p))) as [qx|] eqn:Ex,
             (text_anchor (natural_height img) (EditState.y (textPosition p))) as [qy|] eqn:Ey;
      cbn; try (destruct (grayscale p); repeat constructor; fail).
    pose proof (text_anchor_inside _ _ _ Hw Hx Ex).
    pose proof (text_anchor_inside _ _ _ Hh Hy Ey).
    repeat apply Forall_app_2; destruct (grayscale p); repeat constructor; cbn; tauto.
Qed.

End WithPlatform.

Section Witnesses.
Import Platform.ModelBrowser.

Definition sample_props (gray : bool) (t : string) : Props :=
  mkProps (Some "red.png") (Num 50) (Num 0) (Num (1 # 2)) gray t
          (EditState.mkPosition (Num 50) (Num 25)) "#ffffff" (Num 24).

Definition empty_image : image := (0%Z, 0%Z, []).

Definition two_image : image := (2%Z, 1%Z, [10; 20; 31; 255; 0; 0; 2; 7]%Z).

Example onload_two_pixels_gray :
  cv_data (snd (onload (sample_props true "") two_image (reset 0 0))) =
  [20; 20; 20; 255; 1; 1; 1; 7]%Z.
Proof. vm_compute. reflexivity. Qed.

Example neutral_filter_string :
  filter_string (Num 0) (Num 0) (Num 0) = "brightness(100%) contrast(100%) blur(0px)"%string.
Proof. vm_compute. reflexivity. Qed.

Example sample_filter_string :
  filter_string (Num 50) (Num (-30)) (Num (5 # 2)) = "brightness(150%) contrast(70%) blur(2.5px)"%string.
Proof. vm_compute. reflexivity. Qed.

Lemma onload_grayscale_pixels_witness :
  cv_data (snd (onload (sample_props true "") two_image (reset 0 0))) =
  Grayscale.of_pixels (map Grayscale.gray_pixel (Grayscale.to_pixels
    (draw_image (filter_string (Num 50) (Num 0) (Num (1 # 2))) two_image
       (natural_width two_image) (natural_height two_image)
       (blank (natural_width two_image) (natural_height two_image))))).
Proof.
  apply (onload_grayscale_pixels (sample_props true "") two_image);
    [reflexivity | discriminate | discriminate | reflexivity].
Defined.

Lemma onload_text_overlay_witness :
  exists c,
    cv_log (snd (onload (sample_props false "Hi") two_image (reset 0 0))) =
      [DrawImage (filter_string (Num 50) (Num 0) (Num (1 # 2)))]
      ++ [StrokeText "Hi" (inject_Z (natural_width two_image) * 50 / inject_Z 100)
                          (inject_Z (natural_height two_image) * 25 / inject_Z 100) c]
      ++ [FillText "Hi" (inject_Z (natural_width two_image) * 50 / inject_Z 100)
                        (inject_Z (natural_height two_image) * 25 / inject_Z 100) c] /\
    filter c = "none"%string /\ strokeStyle c = "black"%string /\
    fillStyle c = "#ffffff"%string /\ lineWidth c = (24 / inject_Z 8)%Q /\
    textAlign c = "center"%string /\ textBaseline c = "middle"%string /\
    font c = (to_string (Num 24) ++ "px Arial")%string.
Proof.
  apply (onload_text_overlay (sample_props false "Hi") two_image (reset 0 0) 50 25 24);
    [intros [Hg _]; discriminate | discriminate | reflexivity | reflexivity | reflexivity | reflexivity].
Defined.

Lemma onload_index_size_error_witness :
  fst (onload (sample_props true "") empty_image (reset 0 0)) = inr IndexSizeError.
Proof. apply onload_index_size_error; [reflexivity | left; reflexivity]. Defined.

Lemma onload_text_inside_witness :
  EditState.on_range 0 100 1 (Num 50) /\ EditState.on_range 0 100 1 (Num 25) /\
  Forall (text_op_inside (cv_width (snd (onload (sample_props false "Hi") two_image (reset 0 0))))
                         (cv_height (snd (onload (sample_props false "Hi") two_image (reset 0 0)))))
         (cv_log (snd (onload (sample_props false "Hi") two_image (reset 0 0)))).
Proof.
  assert (Hx : EditState.on_range 0 100 1 (Num 50)) by (split; [split; vm_compute; discriminate | by exists 50%Z]).
  assert (Hy : EditState.on_range 0 100 1 (Num 25)) by (split; [split; vm_compute; discriminate | by exists 25%Z]).
  split; [exact Hx | split; [exact Hy |]].
  exact (onload_text_inside (sample_props false "Hi") two_image (reset 0 0) Hx Hy).
Defined.

End Witnesses.

End Canvas.
