(* ===== verification/Panels.v ===== *)
(** * Panels: the control panels' change handlers

    Controls.tsx and TextOverlay.tsx render inputs whose [onChange]
    handlers call the callbacks App.tsx passes down, each of which merges a
    one-key [Partial<ImageState>] into the active tab's state (App.tsx
    lines 158-172).  An input event is [control_event], carrying the
    input's [e.target.value] (or [checked]); [controls_on_change] and
    [text_overlay_on_change] are the handlers and callbacks composed: the
    update each asks the orchestrator to merge.
    The panels keep no state of their own.  [widget_ok] is what each
    input can produce as its value, from its attributes. *)

From S2P Require Import Prelude JsNum EditState.

Module Panels.
Import JsNum EditState.

(** The inputs of Controls.tsx (lines 32-86): three range inputs and a
    checkbox. *)
Inductive controls_event :=
| BrightnessInput (value : string)
| ContrastInput (value : string)
| BlurInput (value : string)
| GrayscaleInput (checked : bool).

(** [onChange={(e) => onBrightnessChange(Number(e.target.value))}] and the
    others, with the callbacks App.tsx passes (lines 158-161). *)
Definition controls_on_change (e : controls_event) : PartialState :=
  match e with
  | BrightnessInput v => [Fbrightness (of_string v)]
  | ContrastInput v => [Fcontrast (of_string v)]
  | BlurInput v => [Fblur (of_string v)]
  | GrayscaleInput c => [Fgrayscale c]
  end.

(** The inputs of TextOverlay.tsx (lines 33-101): a text field, a colour
    picker and three range inputs. *)
Inductive text_overlay_event :=
| TextInput (value : string)
| ColorInput (value : string)
| FontSizeInput (value : string)
| XInput (value : string)
| YInput (value : string).

(** The handlers with the callbacks App.tsx passes (lines 164-173).
    [textPosition] is the prop the panel was rendered with: the position
    handlers spread it and replace one axis (lines 83, 99). *)
Definition text_overlay_on_change (textPosition : Position) (e : text_overlay_event) : PartialState :=
  match e with
  | TextInput v => [FoverlayText v]
  | ColorInput v => [FtextColor v]
  | FontSizeInput v => [FfontSize (of_string v)]
  | XInput v => [FtextPosition (mkPosition (of_string v) (y textPosition))]
  | YInput v => [FtextPosition (mkPosition (x textPosition) (of_string v))]
  end.

Inductive control_event :=
| FromControls (e : controls_event)
| FromTextOverlay (e : text_overlay_event).

(** The update an input event asks the orchestrator to merge into the
    active tab's state. *)
Definition on_change (textPosition : Position) (e : control_event) : PartialState :=
  match e with
  | FromControls e => controls_on_change e
  | FromTextOverlay e => text_overlay_on_change textPosition e
  end.

(** The values an input can produce.  A range input's [value] is the
    serialisation of a number of its range, which [String(n)] prints. *)
Definition range_value (lo hi : Z) (step : Q) (v : string) : Prop :=
  exists n, on_range lo hi step n /\ v = to_string n.

(** What each input of the panels can produce as [e.target.value] (or
    [checked]), from its attributes: the [min], [max] and [step] of the
    range inputs (Controls.tsx lines 33-35, 49-51, 65-68; TextOverlay.tsx
    lines 61-63, 77-79, 93-95); any string for the text field and the
    colour picker; either state for the checkbox. *)
Definition widget_ok (e : control_event) : Prop :=
  match e with
  | FromControls (BrightnessInput v) | FromControls (ContrastInput v) => range_value (-100) 100 1 v
  | FromControls (BlurInput v) => range_value 0 10 (1 # 2) v
  | FromControls (GrayscaleInput _) => True
  | FromTextOverlay (TextInput _) | FromTextOverlay (ColorInput _) => True
  | FromTextOverlay (FontSizeInput v) => range_value 12 72 1 v
  | FromTextOverlay (XInput v) | FromTextOverlay (YInput v) => range_value 0 100 1 v
  end.

Local Open Scope editor_scope.

(** C32: Changing the x slider sets x to [Number(value)] and keeps y, and
    symmetrically; no other field of the state changes. *)
Theorem position_update_keeps_other_axis (s : ImageState) (v : string) :
  s ⊲ on_change (textPosition s) (FromTextOverlay (XInput v)) =
    mkImageState (currentImage s) (brightness s) (contrast s) (blur s) (grayscale s)
      (overlayText s) (mkPosition (of_string v) (y (textPosition s))) (textColor s) (fontSize s) /\
  s ⊲ on_change (textPosition s) (FromTextOverlay (YInput v)) =
    mkImageState (currentImage s) (brightness s) (contrast s) (blur s) (grayscale s)
      (overlayText s) (mkPosition (x (textPosition s)) (of_string v)) (textColor s) (fontSize s).
Proof. by destruct s. Qed.

(** ** Lemmas *)

(** An integer slider's value prints as a numeral that [Number] reads
    back as the same value. *)
Lemma int_value_read_back (lo hi : Z) (v : number) :
  on_range lo hi 1 v -> num_eq (of_string (to_string v)) v.
Proof.
  destruct v as [q|]; [|done]. intros [_ [k Hk]].
  assert (Hq : num_eq (Num q) (Num (inject_Z (lo + k)))).
  { cbn [num_eq]. etransitivity; [exact Hk|]. rewrite inject_Z_plus. ring. }
  rewrite (to_string_proper _ _ Hq), to_string_integer by reflexivity. cbn [Qnum inject_Z].
  rewrite of_string_int_string. by symmetry.
Qed.

(** So does the blur slider's, a multiple of 0.5 from 0. *)
Lemma half_value_read_back (hi : Z) (v : number) :
  on_range 0 hi (1 # 2) v -> num_eq (of_string (to_string v)) v.
Proof.
  destruct v as [q|]; [|done]. intros [[Hlo _] [k Hk]].
  assert (Hq : (q == k # 2)%Q) by (rewrite Hk; unfold Qeq; cbn; lia).
  assert (Hk0 : (0 <= k)%Z) by (rewrite Hq in Hlo; unfold Qle in Hlo; cbn in Hlo; lia).
  rewrite (to_string_proper (Num q) (Num (k # 2)) Hq), half_string_roundtrip by done.
  cbn [num_eq]. by rewrite Qred_correct, Hq.
Qed.

(** [Number(e.target.value)] of a value the slider produces is in the
    slider's range. *)
Lemma range_value_int (lo hi : Z) (v : string) :
  range_value lo hi 1 v -> on_range lo hi 1 (of_string v).
Proof.
  intros (n & Hn & ->). apply (proj2 (on_range_proper _ _ _ _ _ (int_value_read_back _ _ _ Hn))), Hn.
Qed.

Lemma range_value_half (hi : Z) (v : string) :
  range_value 0 hi (1 # 2) v -> on_range 0 hi (1 # 2) (of_string v).
Proof.
  intros (n & Hn & ->). apply (proj2 (on_range_proper _ _ _ _ _ (half_value_read_back _ _ Hn))), Hn.
Qed.

(** Every update an input can produce is one key, with a value in its
    widget's range when the rendered position is. *)
Lemma on_change_single (tp : Position) (e : control_event) : exists f, on_change tp e = [f].
Proof. destruct e as [[]|[]]; eauto. Qed.

Lemma on_change_ok (tp : Position) (e : control_event) :
  on_range 0 100 1 (x tp) -> on_range 0 100 1 (y tp) -> widget_ok e ->
  Forall field_ok (on_change tp e).
Proof.
  intros Hx Hy He.
  destruct e as [[]|[]]; cbn in He |- *; (apply Forall_cons; [|apply Forall_nil]); cbn; try split;
    eauto using range_value_int, range_value_half.
Qed.

End Panels.
