(* ===== verification/View.v ===== *)
(** * View: the elements the components render

    The JSX of Controls.tsx, TextOverlay.tsx and RecipeCard.tsx as element
    trees.  A [node] is an element (tag, attributes, children) or a text
    node.  React renders a number child or attribute as [String(n)]
    ([JsNum.to_string]), a string as itself and [false] as nothing; JSX
    text is trimmed of the line breaks around it.  A lucide-react icon is
    an [svg] element named after the icon.  The [onChange] handlers are
    not part of the tree: [Panels] models what they do.  The queries
    ([subnodes], [attr], [text_content]) are what the theorems read the
    tree with. *)

From S2P Require Import Prelude JsNum EditState Panels.

Module View.
Import JsNum EditState Panels.

Section nested_ind.
Local Unset Elimination Schemes.

Inductive node :=
| Elem (tag : string) (attrs : list (string * string)) (children : list node)
| Text (s : string).

(** Induction through the children list, as for any rose tree. *)
Variable P : node -> Prop.
Hypothesis case_Elem : forall tag attrs children,
  Forall P children -> P (Elem tag attrs children).
Hypothesis case_Text : forall s, P (Text s).

Fixpoint node_ind (n : node) : P n :=
  match n with
  | Elem tag attrs children =>
      case_Elem tag attrs children
        ((fix go (l : list node) : Forall P l :=
            match l with
            | [] => List.Forall_nil _
            | c :: l => List.Forall_cons _ c l (node_ind c) (go l)
            end) children)
  | Text s => case_Text s
  end.
End nested_ind.

(** ** Queries *)

Fixpoint assoc (k : string) (l : list (string * string)) : option string :=
  match l with
  | [] => None
  | (k', v) :: l => if String.eqb k k' then Some v else assoc k l
  end.

Definition attr (k : string) (n : node) : option string :=
  match n with Elem _ a _ => assoc k a | Text _ => None end.

Definition tag_of (n : node) : option string :=
  match n with Elem t _ _ => Some t | Text _ => None end.

(** The node and all its descendants, in document order. *)
Fixpoint subnodes (n : node) : list node :=
  n :: match n with
       | Text _ => []
       | Elem _ _ cs =>
           (fix go (l : list node) : list node :=
              match l with [] => [] | c :: l => subnodes c ++ go l end) cs
       end.

(** [node.textContent]: the text of the node's text descendants. *)
Fixpoint text_content (n : node) : string :=
  match n with
  | Text s => s
  | Elem _ _ cs =>
      (fix go (l : list node) : string :=
         match l with [] => EmptyString | c :: l => (text_content c ++ go l)%string end) cs
  end.

Definition is_tag (t : string) (n : node) : bool :=
  match tag_of n with Some t' => String.eqb t t' | None => false end.

(** Whether an element's [className] is exactly [c]. *)
Definition has_class (c : string) (n : node) : bool := bool_decide (attr "className" n = Some c).

(** The [<input type="range">] elements of a tree, in document order. *)
Definition range_inputs (n : node) : list node :=
  List.filter (fun m => is_tag "input" m &&
                         match attr "type" m with Some t => String.eqb t "range" | None => false end)
              (subnodes n).

(** ** The components' elements *)

Definition icon (name cls : string) : node := Elem "svg" [("icon", name); ("className", cls)] [].

Definition label_class : string := "flex items-center gap-2 text-sm font-medium text-gray-700".
Definition range_class : string := "w-full h-2 bg-gray-200 rounded-lg appearance-none cursor-pointer".
Definition value_class : string := "text-xs text-gray-500".

(** A labelled range input with its value shown after it (Controls.tsx
    lines 27-41, 43-57, 59-74; TextOverlay.tsx lines 56-70, 73-87,
    89-103): [step] is absent except on the blur slider. *)
Definition slider_group (ic label mn mx : string) (step : option string) (v : number)
    (unit : string) : node :=
  Elem "div" [("className", "space-y-2")]
    [Elem "label" [("className", label_class)] [icon ic "w-4 h-4"; Text label];
     Elem "input" ([("type", "range"); ("min", mn); ("max", mx)] ++
                   match step with Some s => [("step", s)] | None => [] end ++
                   [("value", to_string v); ("className", range_class)]) [];
     Elem "span" [("className", value_class)] [Text (to_string v); Text unit]].

(** [ControlsProps] without its callbacks: the values it displays. *)
Record ControlsProps := mkControlsProps {
  c_brightness : number; c_contrast : number; c_blur : number; c_grayscale : bool }.

(** Controls.tsx lines 25-89. *)
Definition controls_view (p : ControlsProps) : node :=
  Elem "div" [("className", "space-y-4 w-full max-w-md")]
    [slider_group "Sun" "Brightness" "-100" "100" None (c_brightness p) "%";
     slider_group "Contrast" "Contrast" "-100" "100" None (c_contrast p) "%";
     slider_group "GalleryVerticalEnd" "Blur" "0" "10" (Some "0.5") (c_blur p) "px";
     Elem "div" [("className", "flex items-center gap-2")]
       [Elem "label" [("className", label_class ++ " cursor-pointer")%string]
          [icon "ImageOff" "w-4 h-4"; Text "Grayscale"];
        Elem "input" [("type", "checkbox");
                      ("checked", if c_grayscale p then "true" else "false");
                      ("className", "rounded text-blue-600 focus:ring-blue-500 cursor-pointer")] []]].

(** [TextOverlayProps] without its callbacks. *)
Record TextOverlayProps := mkTextOverlayProps {
  t_text : string; t_textColor : string; t_fontSize : number; t_textPosition : Position }.

(** TextOverlay.tsx lines 25-106. *)
Definition text_overlay_view (p : TextOverlayProps) : node :=
  Elem "div" [("className", "space-y-4 border-t pt-4")]
    [Elem "h3" [("className", "text-sm font-semibold text-gray-800")] [Text "Text Overlay"];
     Elem "div" [("className", "space-y-2")]
       [Elem "label" [("className", label_class)] [icon "Type" "w-4 h-4"; Text "Text Content"];
        Elem "input" [("type", "text"); ("value", t_text p); ("placeholder", "Enter text overlay");
          ("className", "w-full px-3 py-2 border border-gray-300 rounded-md focus:ring-blue-500 focus:border-blue-500")] []];
     Elem "div" [("className", "space-y-2")]
       [Elem "label" [("className", label_class)] [icon "Palette" "w-4 h-4"; Text "Text Color"];
        Elem "input" [("type", "color"); ("value", t_textColor p);
                      ("className", "w-full h-8 rounded-md cursor-pointer")] []];
     slider_group "Type" "Font Size" "12" "72" None (t_fontSize p) "px";
     Elem "div" [("className", "grid grid-cols-2 gap-4")]
       [slider_group "Move" "X Position" "0" "100" None (x (t_textPosition p)) "%";
        slider_group "Move" "Y Position" "0" "100" None (y (t_textPosition p)) "%"]].

(** RecipeCard.tsx lines 4-10. *)
Record RecipeCardProps := mkRecipeCardProps {
  title : string; image : string; time : string; servings : number; difficulty : string }.

(** RecipeCard.tsx lines 12-41. *)
Definition recipe_card (p : RecipeCardProps) : node :=
  Elem "div" [("className", "bg-white rounded-xl overflow-hidden shadow-lg hover:shadow-xl transition-shadow duration-300")]
    [Elem "div" [("className", "relative h-48 overflow-hidden")]
       [Elem "img" [("src", image p); ("alt", title p);
          ("className", "w-full h-full object-cover transform hover:scale-105 transition-transform duration-300")] []];
     Elem "div" [("className", "p-5")]
       [Elem "h3" [("className", "text-xl font-semibold text-gray-800 mb-3")] [Text (title p)];
        Elem "div" [("className", "flex items-center justify-between text-gray-600")]
          [Elem "div" [("className", "flex items-center gap-2")]
             [icon "Clock" "w-4 h-4"; Elem "span" [("className", "text-sm")] [Text (time p)]];
           Elem "div" [("className", "flex items-center gap-2")]
             [icon "Users" "w-4 h-4";
              Elem "span" [("className", "text-sm")] [Text (to_string (servings p)); Text " servings"]];
           Elem "div" [("className", "flex items-center gap-2")]
             [icon "ChefHat" "w-4 h-4"; Elem "span" [("className", "text-sm")] [Text (difficulty p)]]]]].

(** ** What the sliders show *)

(** The range inputs display the state they control: in a well-formed
    edit state, the six range inputs of the two panels, in document
    order, carry [value] attributes that [Number(e.target.value)] reads
    back as brightness, contrast, blur, font size, x and y. *)
Lemma panels_show_state (st : ImageState) :
  wf_state st ->
  Forall2 (fun n v => exists s, attr "value" n = Some s /\ num_eq (of_string s) v)
    (range_inputs (controls_view (mkControlsProps (brightness st) (contrast st) (blur st) (grayscale st)))
     ++ range_inputs (text_overlay_view
          (mkTextOverlayProps (overlayText st) (textColor st) (fontSize st) (textPosition st))))
    [brightness st; contrast st; blur st; fontSize st; x (textPosition st); y (textPosition st)].
Proof.
  intros (Hb & Hc & Hbl & Hf & Hx & Hy). cbn.
  repeat apply Forall2_cons; try apply Forall2_nil; (eexists; split; [reflexivity|]);
    eauto using int_value_read_back, half_value_read_back.
Qed.

(** C33: The recipe card shows its recipe: its text is the title, the time,
    the servings with " servings" and the difficulty, and it holds an
    image of the recipe's picture with the title as its alternative
    text. *)
Theorem recipe_card_shows (p : RecipeCardProps) :
  text_content (recipe_card p) =
    (title p ++ time p ++ to_string (servings p) ++ " servings" ++ difficulty p)%string /\
  exists img, In img (subnodes (recipe_card p)) /\ is_tag "img" img = true /\
    attr "src" img = Some (image p) /\ attr "alt" img = Some (title p).
Proof.
  split.
  - cbn. rewrite ?string_app_nil_l, ?string_app_nil_r, <- ?string_app_assoc. reflexivity.
  - eexists. split; [cbn; right; right; left; reflexivity|]. repeat split.
Qed.

End View.
