(* ===== verification/App.v ===== *)
(** * App: the orchestrator of App.tsx

    The component's state is [activeTab], the shared [isLoading] flag and
    the array [imageStates] of three edit states.  Besides it, the model
    keeps what the browser holds for the program: the [FileReader]s whose
    [onloadend] has not fired ([reads], each with the tab index its closure
    captured) and the [Image]s whose [onload] has not fired ([loads], each
    with the canvas it draws on and the props its closure captured), and
    the three canvases' bitmaps.

    Every state change that React does not bail out of re-renders [App]
    ([commit]): the render reads [imageStates[activeTab]] and mounts three
    [ImageCanvas]; the arrow [() => setIsLoading(false)] passed as
    [onImageLoad] is a new function at every render, so the dependency
    array of every canvas effect changes and each effect starts a new image
    load.  A superseded load is not cancelled.

    [handle_event] is the handler of each event, user input or a callback
    of the browser; [step] is the transition relation (an event is enabled
    when the user can produce it), [reachable] its closure from the first
    render.  [contract_step] is the specification's contract of the state
    container, which every step refines; [ordered_reachable] restricts
    the browser to completing loads in the order they started, under
    which every canvas converges to the current state; the scenarios at
    the end run the model browser of [Platform.ModelBrowser]. *)

From stdpp Require Import relations.
From S2P Require Import Prelude JsNum Grayscale EditState Platform Canvas Panels.

Module App.
Import JsNum EditState Platform.

Inductive surface := Original | Processed | GrayPreview.

#[export] Instance surface_eq_dec : EqDecision surface.
Proof. solve_decision. Defined.

Record Surfaces := mkSurfaces {
  original : Canvas.Canvas;
  processed : Canvas.Canvas;
  gray_preview : Canvas.Canvas;
}.

Definition surface_get (c : Surfaces) (k : surface) : Canvas.Canvas :=
  match k with
  | Original => original c
  | Processed => processed c
  | GrayPreview => gray_preview c
  end.

Definition surface_set (c : Surfaces) (k : surface) (cv : Canvas.Canvas) : Surfaces :=
  match k with
  | Original => mkSurfaces cv (processed c) (gray_preview c)
  | Processed => mkSurfaces (original c) cv (gray_preview c)
  | GrayPreview => mkSurfaces (original c) (processed c) cv
  end.

(** The sidebar's tab buttons (lines 42-46): an icon and a label each. *)
Record tab := mkTab { tab_icon : string; tab_label : string }.

Definition tabs : list tab :=
  [mkTab "LayoutGrid" "Layout 1"; mkTab "ImagePlus" "Layout 2"; mkTab "Images" "Layout 3"].

(** The props of the three canvases (lines 124-135, 194-205, 218-229). *)
Definition original_props (st : ImageState) : Canvas.Props :=
  Canvas.mkProps (currentImage st) (Num 0) (Num 0) (Num 0) false ""
                 (textPosition st) (textColor st) (fontSize st).

Definition processed_props (st : ImageState) : Canvas.Props :=
  Canvas.mkProps (currentImage st) (brightness st) (contrast st) (blur st) (grayscale st)
                 (overlayText st) (textPosition st) (textColor st) (fontSize st).

Definition gray_props (st : ImageState) : Canvas.Props :=
  Canvas.mkProps (currentImage st) (brightness st) (contrast st) (blur st) true
                 (overlayText st) (textPosition st) (textColor st) (fontSize st).

(** [image.src = imageUrl]: a [null] URL is converted to the string "null". *)
Definition src_of (u : option string) : string :=
  match u with Some s => s | None => "null" end.

Section WithPlatform.
Context `{Canvas2D} `{FileAPI}.

Record PendingRead := mkRead { rd_index : nat; rd_file : file }.
Record PendingLoad := mkLoad { ld_surface : surface; ld_props : Canvas.Props }.

Record AppState := mkApp {
  activeTab : nat;
  isLoading : bool;
  imageStates : list ImageState;
  reads : list PendingRead;
  loads : list PendingLoad;
  canvases : Surfaces;
}.

Definition with_activeTab (i : nat) (s : AppState) : AppState :=
  mkApp i (isLoading s) (imageStates s) (reads s) (loads s) (canvases s).
Definition with_isLoading (b : bool) (s : AppState) : AppState :=
  mkApp (activeTab s) b (imageStates s) (reads s) (loads s) (canvases s).
Definition with_imageStates (l : list ImageState) (s : AppState) : AppState :=
  mkApp (activeTab s) (isLoading s) l (reads s) (loads s) (canvases s).
Definition with_reads (r : list PendingRead) (s : AppState) : AppState :=
  mkApp (activeTab s) (isLoading s) (imageStates s) r (loads s) (canvases s).
Definition with_loads (l : list PendingLoad) (s : AppState) : AppState :=
  mkApp (activeTab s) (isLoading s) (imageStates s) (reads s) l (canvases s).
Definition with_canvases (c : Surfaces) (s : AppState) : AppState :=
  mkApp (activeTab s) (isLoading s) (imageStates s) (reads s) (loads s) c.

(** ** Rendering *)

(** The render of [App] (lines 83-237): the loads the three canvas effects
    start.  [imageStates[activeTab]] out of range is [undefined], and
    reading [.currentImage] of it throws: [None]. *)
Definition render (s : AppState) : option (list PendingLoad) :=
  st ← imageStates s !! activeTab s;
  Some [mkLoad Original (original_props st); mkLoad Processed (processed_props st);
        mkLoad GrayPreview (gray_props st)].

Definition commit (s : AppState) : option AppState :=
  ps ← render s; Some (with_loads (loads s ++ ps) s).

(** ** State setters: React bails out of a set to the same value *)

Definition setActiveTab (i : nat) (s : AppState) : option AppState :=
  if decide (i = activeTab s) then Some s else commit (with_activeTab i s).

Definition setIsLoading (b : bool) (s : AppState) : option AppState :=
  if Bool.eqb b (isLoading s) then Some s else commit (with_isLoading b s).

(** [setImageStates(prev => ...)]: the updater returns a new array, so
    [App] always re-renders. *)
Definition setImageStates (f : list ImageState -> option (list ImageState)) (s : AppState)
  : option AppState :=
  l ← f (imageStates s); commit (with_imageStates l s).

(** [newStates[index] = v] on the copy [[...prev]].  Past the end the
    array would grow with holes and stop being an [ImageState[]]: the model
    stops there ([None]). *)
Definition array_set (l : list ImageState) (i : nat) (v : ImageState) : option (list ImageState) :=
  if decide (i < length l) then Some (<[i := v]> l) else None.

(** ** The handlers *)

(** [handleReset] (lines 48-54). *)
Definition handleReset (index : nat) : AppState -> option AppState :=
  setImageStates (fun prev => array_set prev index defaultImageState).

(** [updateImageState] (lines 75-81). *)
Definition updateImageState (index : nat) (updates : PartialState) : AppState -> option AppState :=
  setImageStates (fun prev => st ← prev !! index; array_set prev index (merge st updates)).

(** [handleImageUpload] (lines 56-73): with a file, show the spinner and
    start a read whose callback captures [index]. *)
Definition handleImageUpload (f : option file) (index : nat) (s : AppState) : option AppState :=
  match f with
  | None => Some s
  | Some fl => s' ← setIsLoading true s; Some (with_reads (reads s' ++ [mkRead index fl]) s')
  end.

(** [reader.onloadend] (lines 61-70) of the [k]-th pending read. *)
Definition reader_onloadend (k : nat) (s : AppState) : option AppState :=
  r ← reads s !! k;
  updateImageState (rd_index r) [FcurrentImage (read_as_data_url (rd_file r))]
                   (with_reads (delete k (reads s)) s).

(** [image.onload] of the [k]-th pending load: the canvas runs the render
    routine; [onImageLoad()] is called when the routine returns normally. *)
Definition image_onload (k : nat) (img : image) (s : AppState) : option AppState :=
  ld ← loads s !! k;
  let s1 := with_loads (delete k (loads s)) s in
  let '(res, cv) := Canvas.onload (ld_props ld) img (surface_get (canvases s1) (ld_surface ld)) in
  let s2 := with_canvases (surface_set (canvases s1) (ld_surface ld) cv) s1 in
  match res with
  | inl _ => setIsLoading false s2
  | inr _ => Some s2
  end.

(** [image.onerror]: there is no handler; the load is simply over. *)
Definition image_onerror (k : nat) (s : AppState) : option AppState :=
  _ ← loads s !! k; Some (with_loads (delete k (loads s)) s).

(** ** Events and steps *)

Inductive event :=
| ClickTab (i : nat)
| ClickReset
| Control (e : Panels.control_event)
| Upload (f : option file)
| ReaderDone (k : nat)
| ImageLoaded (k : nat)
| ImageFailed (k : nat).

Definition handle_event (ev : event) (s : AppState) : option AppState :=
  match ev with
  | ClickTab i => setActiveTab i s
  | ClickReset => handleReset (activeTab s) s
  | Control e =>
      st ← imageStates s !! activeTab s;
      updateImageState (activeTab s) (Panels.on_change (textPosition st) e) s
  | Upload f => handleImageUpload f (activeTab s) s
  | ReaderDone k => reader_onloadend k s
  | ImageLoaded k =>
      ld ← loads s !! k;
      img ← decode (src_of (Canvas.imageUrl (ld_props ld)));
      image_onload k img s
  | ImageFailed k =>
      ld ← loads s !! k;
      match decode (src_of (Canvas.imageUrl (ld_props ld))) with
      | None => image_onerror k s
      | Some _ => None
      end
  end.

(** What the user can produce: a click on one of the buttons [tabs.map]
    renders, and input events carrying a value the input can produce
    ([Panels.widget_ok]: a range input's value is a number of its range).
    Whatever the handler then makes of that value is the handler's
    business: the step relation does not look at the update. *)
Definition allowed (s : AppState) (ev : event) : Prop :=
  match ev with
  | ClickTab i => (i < length tabs)%nat
  | Control e => Panels.widget_ok e
  | _ => True
  end.

Inductive step : AppState -> event -> AppState -> Prop :=
| step_intro s ev s' : allowed s ev -> handle_event ev s = Some s' -> step s ev s'.

(** The state before the first render: three default states, the spinner
    on.  The canvases' initial bitmaps are a parameter: the browser's is a
    transparent 300 x 150 bitmap, and [Canvas.onload_from_scratch] shows
    that no completed load depends on it. *)
Definition state0 (c0 : Surfaces) : AppState :=
  mkApp 0 true [defaultImageState; defaultImageState; defaultImageState] [] [] c0.

Inductive reachable : AppState -> Prop :=
| reach_mount c0 s : commit (state0 c0) = Some s -> reachable s
| reach_step s ev s' : reachable s -> step s ev s' -> reachable s'.

(** ** The contract of the state container

    What the specification asks of the orchestrator's state (the active
    tab and the three edit states): a tab switch is a pure index change,
    a reset replaces the active state by the defaults, a control
    interaction replaces one field of the active state by a value in its
    widget's range ("replaced field-by-field on every control
    interaction"), and a completed upload stores an image URL into a
    tab. *)
Definition abs_state : Type := (nat * list ImageState)%type.

Definition abstract (s : AppState) : abs_state := (activeTab s, imageStates s).

Inductive contract_step : abs_state -> abs_state -> Prop :=
| cs_switch a l i : i < length l -> contract_step (a, l) (i, l)
| cs_reset a l : a < length l -> contract_step (a, l) (a, <[a := defaultImageState]> l)
| cs_update a l st f :
    l !! a = Some st -> field_ok f -> contract_step (a, l) (a, <[a := merge st [f]]> l)
| cs_store a l i st url :
    l !! i = Some st -> contract_step (a, l) (a, <[i := merge st [FcurrentImage url]]> l).

(** The events the browser produces, not the user. *)
Definition async (ev : event) : bool :=
  match ev with ReaderDone _ | ImageLoaded _ | ImageFailed _ => true | _ => false end.

(** One browser callback: a read or an image load completes or fails. *)
Definition async_step (s s' : AppState) : Prop :=
  exists ev, async ev = true /\ step s ev s'.

(** Every pending load requests a URL that does not decode. *)
Definition loads_fail (s : AppState) : Prop :=
  Forall (fun ld => decode (src_of (Canvas.imageUrl (ld_props ld))) = None) (loads s).

(** ** Loads completing in the order they started *)

(** The props the render gives canvas [k] for the edit state [st]. *)
Definition surface_props (k : surface) : ImageState -> Canvas.Props :=
  match k with
  | Original => original_props
  | Processed => processed_props
  | GrayPreview => gray_props
  end.

Definition loads_for (k : surface) (l : list PendingLoad) : list PendingLoad :=
  base.filter (fun ld => ld_surface ld = k) l.

(** Canvas [cv] shows props [p]: the routine ran with [p] on the image its
    URL decodes to (from some canvas; [Canvas.onload_from_scratch] shows
    which one does not matter), or that URL does not decode and nothing
    can be shown. *)
Definition shows (cv : Canvas.Canvas) (p : Canvas.Props) : Prop :=
  match decode (src_of (Canvas.imageUrl p)) with
  | Some img => exists cv0, cv = snd (Canvas.onload p img cv0)
  | None => True
  end.

(** Canvas [k] is on its way to the current edit state: its last pending
    load carries the current props, or none is pending and it shows them. *)
Definition display_tracks (s : AppState) (k : surface) : Prop :=
  forall st, imageStates s !! activeTab s = Some st ->
  match list.last (loads_for k (loads s)) with
  | Some ld => ld_props ld = surface_props k st
  | None => shows (surface_get (canvases s) k) (surface_props k st)
  end.

(** The browser completes the oldest pending load first. *)
Definition in_order (ev : event) : Prop :=
  match ev with ImageLoaded k | ImageFailed k => k = 0 | _ => True end.

Inductive ordered_reachable : AppState -> Prop :=
| oreach_mount c0 s : commit (state0 c0) = Some s -> ordered_reachable s
| oreach_step s ev s' :
    ordered_reachable s -> in_order ev -> step s ev s' -> ordered_reachable s'.

(** The oldest pending load completes or fails. *)
Definition drain_step (s s' : AppState) : Prop :=
  step s (ImageLoaded 0) s' \/ step s (ImageFailed 0) s'.

(** ** Lemmas: what each operation changes *)

(** Peel the option binds of a handler that returned [Some]. *)
Ltac simpl_opt :=
  repeat match goal with
  | H : mbind _ _ = Some _ |- _ => apply bind_Some in H as (? & ? & H)
  | H : Some _ = Some _ |- _ => injection H as H
  | H : (if decide ?P then _ else _) = Some _ |- _ => destruct (decide P)
  | H : (if ?b then _ else _) = Some _ |- _ => destruct b eqn:?
  | H : match ?o with Some _ => _ | None => _ end = Some _ |- _ => destruct o eqn:?
  | H : None = Some _ |- _ => discriminate H
  end.

Lemma commit_Some (s s' : AppState) :
  commit s = Some s' ->
  exists st, imageStates s !! activeTab s = Some st /\
    s' = with_loads (loads s ++ [mkLoad Original (original_props st);
           mkLoad Processed (processed_props st); mkLoad GrayPreview (gray_props st)]) s.
Proof. unfold commit, render. intros Hc. simpl_opt. subst. eauto. Qed.

(** The fields a re-render leaves as they were. *)
Lemma commit_frame (s s' : AppState) :
  commit s = Some s' ->
  activeTab s' = activeTab s /\ isLoading s' = isLoading s /\
  imageStates s' = imageStates s /\ reads s' = reads s /\ canvases s' = canvases s.
Proof. intros (st & _ & ->)%commit_Some. done. Qed.

Lemma setActiveTab_frame (i : nat) (s s' : AppState) :
  setActiveTab i s = Some s' ->
  activeTab s' = i /\ isLoading s' = isLoading s /\
  imageStates s' = imageStates s /\ reads s' = reads s /\ canvases s' = canvases s.
Proof.
  unfold setActiveTab. intros Hs. simpl_opt; [by subst|].
  apply commit_frame in Hs as (-> & -> & -> & -> & ->). done.
Qed.

Lemma setIsLoading_frame (b : bool) (s s' : AppState) :
  setIsLoading b s = Some s' ->
  activeTab s' = activeTab s /\ isLoading s' = b /\
  imageStates s' = imageStates s /\ reads s' = reads s /\ canvases s' = canvases s.
Proof.
  unfold setIsLoading. intros Hs. simpl_opt.
  - subst. apply Bool.eqb_prop in Heqb0. by subst.
  - apply commit_frame in Hs as (-> & -> & -> & -> & ->). done.
Qed.

Lemma setImageStates_frame f (s s' : AppState) :
  setImageStates f s = Some s' ->
  activeTab s' = activeTab s /\ isLoading s' = isLoading s /\
  f (imageStates s) = Some (imageStates s') /\ reads s' = reads s /\ canvases s' = canvases s.
Proof.
  unfold setImageStates. intros Hs. simpl_opt.
  apply commit_frame in Hs as (-> & -> & -> & -> & ->). by cbn.
Qed.

Lemma array_set_Some (l l' : list ImageState) (i : nat) (v : ImageState) :
  array_set l i v = Some l' -> i < length l /\ l' = <[i := v]> l.
Proof. unfold array_set. intros Hs. by simpl_opt. Qed.

Lemma handleReset_effect (i : nat) (s s' : AppState) :
  handleReset i s = Some s' ->
  i < length (imageStates s) /\ imageStates s' = <[i := defaultImageState]> (imageStates s) /\
  activeTab s' = activeTab s /\ isLoading s' = isLoading s /\ reads s' = reads s.
Proof.
  unfold handleReset. intros (-> & -> & Hf & -> & _)%setImageStates_frame.
  by apply array_set_Some in Hf as [? ->].
Qed.

Lemma updateImageState_effect (i : nat) (u : PartialState) (s s' : AppState) :
  updateImageState i u s = Some s' ->
  exists st, imageStates s !! i = Some st /\
    imageStates s' = <[i := merge st u]> (imageStates s) /\
    activeTab s' = activeTab s /\ isLoading s' = isLoading s /\ reads s' = reads s.
Proof.
  unfold updateImageState. intros (-> & -> & Hf & -> & _)%setImageStates_frame. simpl_opt.
  apply array_set_Some in Hf as [_ ->]. naive_solver.
Qed.

Lemma handleImageUpload_effect (f : option file) (i : nat) (s s' : AppState) :
  handleImageUpload f i s = Some s' ->
  imageStates s' = imageStates s /\ activeTab s' = activeTab s /\
  reads s' = reads s ++ match f with Some fl => [mkRead i fl] | None => [] end.
Proof.
  destruct f as [fl|]; cbn; intros Hs.
  - apply bind_Some in Hs as (s1 & Hs1 & [= <-]). cbn.
    apply setIsLoading_frame in Hs1 as (Ha & _ & Hi & Hr & _). by rewrite Ha, Hi, Hr.
  - injection Hs as <-. by rewrite app_nil_r.
Qed.

Lemma reader_onloadend_effect (k : nat) (s s' : AppState) :
  reader_onloadend k s = Some s' ->
  exists r st, reads s !! k = Some r /\ imageStates s !! rd_index r = Some st /\
    imageStates s' =
      <[rd_index r := merge st [FcurrentImage (read_as_data_url (rd_file r))]]> (imageStates s) /\
    reads s' = delete k (reads s) /\ activeTab s' = activeTab s.
Proof.
  unfold reader_onloadend. intros Hs. simpl_opt.
  apply updateImageState_effect in Hs as (st & Hst & -> & -> & _ & ->). naive_solver.
Qed.

(** An image load changes the canvases, the pending loads and the
    spinner, never the edit states or the pending reads. *)
Lemma image_onload_effect (k : nat) (img : image) (s s' : AppState) :
  image_onload k img s = Some s' ->
  imageStates s' = imageStates s /\ reads s' = reads s /\ activeTab s' = activeTab s.
Proof.
  unfold image_onload. intros Hs. simpl_opt.
  destruct (Canvas.onload _ _ _) as [[] cv]; simpl_opt.
  - by apply setIsLoading_frame in Hs as (-> & _ & -> & -> & _).
  - by subst.
Qed.

Lemma image_onerror_effect (k : nat) (s s' : AppState) :
  image_onerror k s = Some s' ->
  imageStates s' = imageStates s /\ reads s' = reads s /\ activeTab s' = activeTab s.
Proof. unfold image_onerror. intros Hs. simpl_opt. by subst. Qed.

(** ** The invariant *)

Definition wf_app (s : AppState) : Prop :=
  length (imageStates s) = 3 /\ activeTab s < 3 /\
  Forall wf_state (imageStates s) /\ Forall (fun r => rd_index r < 3) (reads s).

(** Which tab's state an event may change: the active one for a reset or
    a control, the one the read captured for a read's completion, none
    for the other events. *)
Definition target (s : AppState) (ev : event) : option nat :=
  match ev with
  | ClickReset | Control _ => Some (activeTab s)
  | ReaderDone k => rd_index <$> reads s !! k
  | _ => None
  end.

(** Every handler that returns changes the edit states at its target at
    most. *)
Lemma handle_event_states (ev : event) (s s' : AppState) :
  handle_event ev s = Some s' ->
  imageStates s' = imageStates s \/
  exists i v, target s ev = Some i /\ i < length (imageStates s) /\
              imageStates s' = <[i := v]> (imageStates s).
Proof.
  unfold handle_event. destruct ev; intros Hs; simpl_opt.
  - apply setActiveTab_frame in Hs. naive_solver.
  - apply handleReset_effect in Hs. naive_solver.
  - apply updateImageState_effect in Hs as (st & Hst & -> & _).
    right. eexists _, _. split; [done|].
    split; [by eapply lookup_lt_Some|done].
  - apply handleImageUpload_effect in Hs. naive_solver.
  - apply reader_onloadend_effect in Hs as (r & st & Hr & Hst & -> & _).
    right. eexists _, _. cbn [target]. rewrite Hr. split; [done|].
    split; [by eapply lookup_lt_Some|done].
  - apply image_onload_effect in Hs. naive_solver.
  - apply image_onerror_effect in Hs. naive_solver.
Qed.

Lemma wf_commit_state0 (c0 : Surfaces) (s : AppState) : commit (state0 c0) = Some s -> wf_app s.
Proof.
  intros (Ha & _ & Hi & Hr & _)%commit_frame. unfold wf_app.
  rewrite Ha, Hi, Hr. cbn. repeat split; auto using default_wf.
Qed.

(** One step keeps the invariant. *)
(** An input event a widget can produce asks for an update in range. *)
Lemma control_update_ok (s : AppState) (st : ImageState) (e : Panels.control_event) :
  Forall wf_state (imageStates s) -> imageStates s !! activeTab s = Some st ->
  Panels.widget_ok e -> Forall field_ok (Panels.on_change (textPosition st) e).
Proof.
  intros Hall Hst He. destruct (Forall_lookup_1 _ _ _ _ Hall Hst) as (_ & _ & _ & _ & Hx & Hy).
  by apply Panels.on_change_ok.
Qed.

Lemma step_wf (s s' : AppState) (ev : event) : wf_app s -> step s ev s' -> wf_app s'.
Proof.
  intros (Hlen & Hact & Hst & Hrd) Hstep.
  inversion Hstep as [? ? ? Hallow Hev]; subst. unfold wf_app. unfold handle_event in Hev. destruct ev; cbn [allowed length tabs] in Hallow.
  - apply setActiveTab_frame in Hev as (-> & _ & -> & -> & _). done.
  - apply handleReset_effect in Hev as (_ & -> & -> & _ & ->).
    rewrite length_insert. auto using Forall_insert, default_wf.
  - simpl_opt. apply updateImageState_effect in Hev as (st & Hst' & -> & -> & _ & ->).
    rewrite length_insert. repeat split; auto.
    apply Forall_insert; [done|]. apply merge_wf; [by eapply Forall_lookup_1|].
    by eapply control_update_ok.
  - apply handleImageUpload_effect in Hev as (-> & -> & ->).
    repeat split; auto. destruct f; [|by rewrite app_nil_r].
    apply Forall_app. auto.
  - apply reader_onloadend_effect in Hev as (r & st & Hr & Hst' & -> & -> & ->).
    rewrite length_insert. repeat split; auto using Forall_delete.
    apply Forall_insert; [done|]. apply merge_wf; [by eapply Forall_lookup_1|].
    by repeat constructor.
  - simpl_opt. apply image_onload_effect in Hev as (-> & -> & ->). done.
  - simpl_opt. apply image_onerror_effect in Hev as (-> & -> & ->). done.
Qed.

(** A render succeeds when the active tab exists. *)
Lemma commit_is_Some (s : AppState) :
  activeTab s < length (imageStates s) -> is_Some (commit s).
Proof.
  intros Hlt. unfold commit, render.
  destruct (lookup_lt_is_Some_2 _ _ Hlt) as [st ->]. by eexists.
Qed.

Lemma setIsLoading_is_Some (b : bool) (s : AppState) :
  activeTab s < length (imageStates s) -> is_Some (setIsLoading b s).
Proof.
  intros Hlt. unfold setIsLoading. destruct (Bool.eqb _ _); [by eexists|].
  by apply commit_is_Some.
Qed.

Lemma setImageStates_is_Some f (s : AppState) (l : list ImageState) :
  f (imageStates s) = Some l -> activeTab s < length l -> is_Some (setImageStates f s).
Proof.
  intros Hf Hlt. unfold setImageStates. rewrite Hf. cbn. by apply commit_is_Some.
Qed.

(** ** Lemmas on the pending loads *)

Lemma commit_loads (s s' : AppState) :
  commit s = Some s' -> length (loads s') = length (loads s) + 3 /\ isLoading s' = isLoading s.
Proof. intros (st & _ & ->)%commit_Some. cbn. rewrite length_app. cbn. split; [lia | done]. Qed.

(** [setIsLoading] re-renders, starting three loads, exactly when the flag
    changes. *)
Lemma setIsLoading_loads (b : bool) (s s' : AppState) :
  setIsLoading b s = Some s' ->
  isLoading s' = b /\
  (length (loads s') = length (loads s) /\ isLoading s = b \/
   length (loads s') = length (loads s) + 3 /\ isLoading s = negb b).
Proof.
  unfold setIsLoading. intros Hs. destruct (Bool.eqb b (isLoading s)) eqn:E.
  - injection Hs as <-. apply Bool.eqb_prop in E. auto.
  - apply commit_loads in Hs as [Hl Hi]. cbn in Hi. split; [done|]. right.
    split; [done|]. destruct b, (isLoading s); done.
Qed.

Lemma setImageStates_loads f (s s' : AppState) :
  setImageStates f s = Some s' ->
  length (loads s') = length (loads s) + 3 /\ isLoading s' = isLoading s.
Proof. unfold setImageStates. intros Hs. simpl_opt. by apply commit_loads in Hs. Qed.

(** The weight of what is pending: a read will start three loads, the
    spinner being on allows one more render of three loads. *)
Definition pending_measure (s : AppState) : nat :=
  4 * length (reads s) + 3 * (if isLoading s then 1 else 0) + length (loads s).

Lemma length_delete_lookup {A} (l : list A) (k : nat) (x : A) :
  l !! k = Some x -> length (delete k l) = length l - 1.
Proof. intros Hk. rewrite length_delete by eauto. lia. Qed.

(** ** Lemmas on the order of completions *)

Lemma surface_get_set_eq (c : Surfaces) (k : surface) (cv : Canvas.Canvas) :
  surface_get (surface_set c k cv) k = cv.
Proof. by destruct k. Qed.

Lemma surface_get_set_ne (c : Surfaces) (k k' : surface) (cv : Canvas.Canvas) :
  k' <> k -> surface_get (surface_set c k cv) k' = surface_get c k'.
Proof. by destruct k, k'. Qed.

(** The last load a render starts on canvas [k] carries its props. *)
Lemma loads_for_render (k : surface) (l : list PendingLoad) (st : ImageState) :
  list.last (loads_for k (l ++ [mkLoad Original (original_props st);
    mkLoad Processed (processed_props st); mkLoad GrayPreview (gray_props st)]))
  = Some (mkLoad k (surface_props k st)).
Proof. unfold loads_for. rewrite list.filter_app, list.last_app. by destruct k. Qed.

(** A render puts every canvas on its way to the state it renders. *)
Lemma display_tracks_commit (s s' : AppState) :
  commit s = Some s' -> forall k, display_tracks s' k.
Proof.
  intros (st & Hst & ->)%commit_Some k st' Hst'. cbn in Hst'.
  rewrite Hst in Hst'. injection Hst' as <-. cbn [loads with_loads].
  by rewrite loads_for_render.
Qed.

Lemma display_tracks_setIsLoading (b : bool) (s s' : AppState) :
  setIsLoading b s = Some s' -> (forall k, display_tracks s k) -> forall k, display_tracks s' k.
Proof.
  unfold setIsLoading. intros Hs Hd. destruct (Bool.eqb _ _).
  - by injection Hs as <-.
  - by eapply display_tracks_commit.
Qed.

Lemma display_tracks_setImageStates f (s s' : AppState) :
  setImageStates f s = Some s' -> forall k, display_tracks s' k.
Proof. unfold setImageStates. intros Hs. simpl_opt. by eapply display_tracks_commit. Qed.

(** The oldest load [ld] completes, leaving on its canvas something that
    shows its props and the other canvases as they were. *)
Lemma display_tracks_pop (s : AppState) (ld : PendingLoad) (rest : list PendingLoad) (c : Surfaces) :
  loads s = ld :: rest ->
  shows (surface_get c (ld_surface ld)) (ld_props ld) ->
  (forall k, k <> ld_surface ld -> surface_get c k = surface_get (canvases s) k) ->
  (forall k, display_tracks s k) ->
  forall k, display_tracks (with_canvases c (with_loads rest s)) k.
Proof.
  intros Hl Hshow Hother Hd k st Hst. specialize (Hd k st Hst).
  cbn [loads canvases with_loads with_canvases] in Hd |- *.
  rewrite Hl in Hd. unfold loads_for in *.
  destruct (decide (ld_surface ld = k)) as [<-|Hne].
  - rewrite list.filter_cons_True, list.last_cons in Hd by done.
    destruct (list.last (base.filter _ rest)); [done|]. by rewrite <- Hd.
  - rewrite list.filter_cons_False in Hd by done. by rewrite Hother by congruence.
Qed.

(** Every event, a load completing only when it is the oldest, keeps
    every canvas on its way to the current state. *)
Lemma display_tracks_step (s s' : AppState) (ev : event) :
  in_order ev -> handle_event ev s = Some s' ->
  (forall k, display_tracks s k) -> forall k, display_tracks s' k.
Proof.
  intros Hord Hev Hd.
  destruct ev as [i| |e|[fl|]|j|j|j]; cbn [handle_event in_order] in Hord, Hev.
  - unfold setActiveTab in Hev. destruct (decide _).
    + by injection Hev as <-.
    + by eapply display_tracks_commit.
  - unfold handleReset in Hev. by eapply display_tracks_setImageStates.
  - simpl_opt. unfold updateImageState in Hev. by eapply display_tracks_setImageStates.
  - cbn in Hev. apply bind_Some in Hev as (s1 & Hs1 & [= <-]). intros k.
    exact (display_tracks_setIsLoading _ _ _ Hs1 Hd k).
  - by injection Hev as <-.
  - unfold reader_onloadend, updateImageState in Hev. simpl_opt.
    by eapply display_tracks_setImageStates.
  - subst j. destruct (loads s) as [|ld rest] eqn:Hl; [done|].
    cbn [lookup list_lookup mbind option_bind] in Hev.
    destruct (decode _) as [img|] eqn:Hdec; [|done]. cbn [mbind option_bind] in Hev.
    unfold image_onload in Hev. rewrite Hl in Hev.
    cbn [lookup list_lookup mbind option_bind delete list_delete canvases with_loads] in Hev.
    destruct (Canvas.onload _ _ _) as [r cv] eqn:Ho.
    assert (Hs2 : forall k, display_tracks
      (with_canvases (surface_set (canvases s) (ld_surface ld) cv) (with_loads rest s)) k).
    { eapply display_tracks_pop; [done| |by intros; apply surface_get_set_ne|done].
      rewrite surface_get_set_eq. unfold shows. rewrite Hdec. eexists. by rewrite Ho. }
    destruct r; simpl_opt; [by eapply display_tracks_setIsLoading|by subst].
  - subst j. destruct (loads s) as [|ld rest] eqn:Hl; [done|].
    cbn [lookup list_lookup mbind option_bind] in Hev.
    destruct (decode _) eqn:Hdec; [done|].
    unfold image_onerror in Hev. rewrite Hl in Hev. injection Hev as <-.
    eapply (display_tracks_pop _ _ _ (canvases s)); [done| |done|done].
    unfold shows. by rewrite Hdec.
Qed.

Lemma ordered_reachable_tracks (s : AppState) :
  ordered_reachable s -> forall k, display_tracks s k.
Proof.
  induction 1 as [c0 s Hc|s ev s' _ IH Hord Hstep]; [by eapply display_tracks_commit|].
  inversion Hstep; subst. by eapply display_tracks_step.
Qed.

Lemma ordered_reachable_wf (s : AppState) : ordered_reachable s -> wf_app s.
Proof.
  induction 1; [by eapply wf_commit_state0|by eapply step_wf].
Qed.

(** In a well-formed state with a pending load, the oldest one can
    complete: its URL decodes and the routine runs, or it fails. *)
Lemma drain_step_exists (s : AppState) :
  wf_app s -> loads s <> [] -> exists s', drain_step s s'.
Proof.
  intros (Hlen & Hact & _) Hne. destruct (loads s) as [|ld rest] eqn:Hl; [done|].
  destruct (decode (src_of (Canvas.imageUrl (ld_props ld)))) as [img|] eqn:Hdec.
  - assert (Hs : is_Some (image_onload 0 img s)).
    { unfold image_onload. rewrite Hl.
      cbn [lookup list_lookup mbind option_bind delete list_delete canvases with_loads].
      destruct (Canvas.onload _ _ _) as [[] cv]; [|by eexists].
      apply setIsLoading_is_Some. cbn. lia. }
    destruct Hs as [s' Hs']. exists s'. left. constructor; [done|].
    cbn [handle_event]. rewrite Hl. cbn [lookup list_lookup mbind option_bind].
    by rewrite Hdec.
  - exists (with_loads rest s). right. constructor; [done|].
    cbn [handle_event]. rewrite Hl. cbn [lookup list_lookup mbind option_bind].
    rewrite Hdec. unfold image_onerror. by rewrite Hl.
Qed.

(** ** Theorems *)

(** C9: Every reachable state is well-formed: three edit states, an active
    tab among them, every field within its widget's range, every pending
    read bound to an existing tab. *)
Theorem reachable_wf (s : AppState) : reachable s -> wf_app s.
Proof.
  induction 1 as [c0 s Hc | s ev s' _ IH Hstep].
  - by eapply wf_commit_state0.
  - by eapply step_wf.
Qed.

(** C1: An event changes the edit state of no tab but its target: switching
    tabs, uploading and image loads change none, a reset or a control
    only the active tab, a read's completion only the tab it captured. *)
Theorem step_isolation (s s' : AppState) (ev : event) (j : nat) :
  step s ev s' -> target s ev <> Some j -> imageStates s' !! j = imageStates s !! j.
Proof.
  intros Hstep Hj. inversion Hstep as [? ? ? _ Hev]; subst.
  destruct (handle_event_states _ _ _ Hev) as [-> | (i & v & Ht & _ & ->)]; [done|].
  apply list_lookup_insert_ne. congruence.
Qed.

(** C2: The reset button replaces the active tab's state by the defaults
    (and, by [step_isolation], nothing else). *)
Theorem reset_restores_defaults (s s' : AppState) :
  step s ClickReset s' ->
  imageStates s' !! activeTab s = Some defaultImageState /\
  (forall j, j <> activeTab s -> imageStates s' !! j = imageStates s !! j) /\
  length (imageStates s') = length (imageStates s) /\
  activeTab s' = activeTab s /\ isLoading s' = isLoading s.
Proof.
  intros Hstep. inversion Hstep as [? ? ? _ Hev]; subst.
  apply handleReset_effect in Hev as (Hlt & -> & -> & -> & _).
  split_and!; [by apply list_lookup_insert_eq | intros j Hj; by apply list_lookup_insert_ne
              | apply length_insert | done | done].
Qed.

(** C16: Switching tabs only changes the index: no edit state and no pending
    read is touched. *)
Theorem switch_tab_preserves_states (s s' : AppState) (i : nat) :
  step s (ClickTab i) s' ->
  activeTab s' = i /\ imageStates s' = imageStates s /\ isLoading s' = isLoading s /\
  reads s' = reads s /\ canvases s' = canvases s.
Proof.
  intros Hstep. inversion Hstep as [? ? ? _ Hev]; subst.
  by apply setActiveTab_frame in Hev as (-> & -> & -> & -> & ->).
Qed.

(** C18: A control event merges the update its panel builds into the active
    tab's state. *)
Theorem control_updates_active (s s' : AppState) (e : Panels.control_event) :
  step s (Control e) s' ->
  exists st, imageStates s !! activeTab s = Some st /\
    imageStates s' = <[activeTab s := merge st (Panels.on_change (textPosition st) e)]> (imageStates s) /\
    activeTab s' = activeTab s /\ isLoading s' = isLoading s /\ reads s' = reads s.
Proof.
  intros Hstep. inversion Hstep as [? ? ? _ Hev]; subst. cbn [handle_event] in Hev.
  destruct (imageStates s !! activeTab s) as [st0|] eqn:Hst0; [|done]. cbn in Hev.
  apply updateImageState_effect in Hev as (st & Hst & -> & -> & -> & ->).
  rewrite Hst0 in Hst. injection Hst as <-. by exists st0.
Qed.

(** C4: The orchestrator implements the state container's contract: from a
    well-formed state, every event either leaves the active tab and the
    edit states as they were or performs one operation of the contract
    on them. *)
Theorem app_refines_contract (s s' : AppState) (ev : event) :
  wf_app s -> step s ev s' -> abstract s' = abstract s \/ contract_step (abstract s) (abstract s').
Proof.
  intros (Hlen & _ & Hall & _) Hstep. inversion Hstep as [? ? ? Hallow Hev]; subst.
  unfold abstract. destruct ev; cbn [handle_event allowed length tabs] in Hev, Hallow.
  - unfold setActiveTab in Hev. destruct (decide _); [by injection Hev as <-; left|].
    apply commit_frame in Hev as (-> & _ & -> & _). right. constructor. cbn. lia.
  - apply handleReset_effect in Hev as (Hlt & -> & -> & _). right. by constructor.
  - destruct (imageStates s !! activeTab s) as [st0|] eqn:Hst0; [|done]. cbn in Hev.
    apply updateImageState_effect in Hev as (st & Hst & -> & -> & _).
    rewrite Hst0 in Hst. injection Hst as <-.
    pose proof (control_update_ok s st0 e Hall Hst0 Hallow) as Hok.
    destruct (Panels.on_change_single (textPosition st0) e) as [f Hf]. rewrite Hf in Hok |- *.
    right. apply cs_update; [done|]. by inversion Hok.
  - apply handleImageUpload_effect in Hev as (-> & -> & _). by left.
  - apply reader_onloadend_effect in Hev as (r & st & _ & Hst & -> & _ & ->).
    right. by econstructor.
  - simpl_opt. apply image_onload_effect in Hev as (-> & _ & ->). by left.
  - simpl_opt. apply image_onerror_effect in Hev as (-> & _ & ->). by left.
Qed.

(** C26: When images fail to load, the spinner stays on: once it is on, no
    read is pending and every pending load's URL fails to decode, no run
    of browser callbacks ever switches it off (there is no [onerror]
    handler and no timeout). *)
Theorem spinner_stuck_when_loads_fail (s s' : AppState) :
  isLoading s = true -> reads s = [] -> loads_fail s ->
  rtc async_step s s' -> isLoading s' = true.
Proof.
  intros Hon Hr Hf Hrtc. revert Hon Hr Hf.
  induction Hrtc as [s|s s1 s' (ev & Hasync & Hstep) _ IH]; intros Hon Hr Hf; [done|].
  inversion Hstep as [? ? ? _ Hev]; subst.
  destruct ev as [| | | |k|k|k]; try discriminate; cbn [handle_event] in Hev.
  - unfold reader_onloadend in Hev. rewrite Hr in Hev. by rewrite lookup_nil in Hev.
  - apply bind_Some in Hev as (ld & Hld & Hev). apply bind_Some in Hev as (img & Hdec & _).
    unfold loads_fail in Hf. by rewrite (Forall_lookup_1 _ _ _ _ Hf Hld) in Hdec.
  - apply bind_Some in Hev as (ld & Hld & Hev). destruct (decode _); [done|].
    unfold image_onerror in Hev. rewrite Hld in Hev. injection Hev as <-.
    apply IH; [done|done|]. by apply Forall_delete.
Qed.

(** C34: No user action crashes the page: in a well-formed state, every event
    a user can produce has a handler that returns. *)
Theorem user_events_total (s : AppState) (ev : event) :
  wf_app s -> allowed s ev ->
  match ev with ClickTab _ | ClickReset | Control _ | Upload _ => True | _ => False end ->
  is_Some (handle_event ev s).
Proof.
  intros (Hlen & Hact & _ & _) Hallow Hev.
  assert (Hlt : activeTab s < length (imageStates s)) by lia.
  destruct ev as [i| |e|[fl|]| | |]; cbn [allowed length tabs] in Hallow; try contradiction; cbn [handle_event].
  - unfold setActiveTab. case_decide; [by eexists|]. apply commit_is_Some. cbn. lia.
  - eapply setImageStates_is_Some.
    + unfold array_set. by rewrite decide_True.
    + by rewrite length_insert.
  - destruct (lookup_lt_is_Some_2 _ _ Hlt) as [st Hst]. rewrite Hst.
    change (is_Some (updateImageState (activeTab s) (Panels.on_change (textPosition st) e) s)).
    eapply setImageStates_is_Some.
    + rewrite Hst. cbn. unfold array_set. by rewrite decide_True.
    + by rewrite length_insert.
  - cbn. destruct (setIsLoading_is_Some true s Hlt) as [s1 ->]. by eexists.
  - by eexists.
Qed.

(** Every completion of a read or of an image load lowers the pending
    weight: the browser's callbacks, left alone, die out. *)
Lemma async_step_decreases (s s' : AppState) (ev : event) :
  step s ev s' -> async ev = true -> pending_measure s' < pending_measure s.
Proof.
  intros Hstep Hasync. inversion Hstep as [? ? ? _ Hev]; subst.
  unfold pending_measure.
  destruct ev as [| | | |k|k|k]; try discriminate; cbn [handle_event] in Hev.
  - unfold reader_onloadend in Hev. simpl_opt.
    pose proof (length_delete_lookup _ _ _ H2).
    assert (0 < length (reads s)) by (eapply lookup_lt_Some in H2; lia).
    apply updateImageState_effect in Hev as Heff. destruct Heff as (_ & _ & _ & _ & Hi & Hr).
    unfold updateImageState in Hev. apply setImageStates_loads in Hev as [Hl Hi'].
    cbn in Hl, Hi', Hr. rewrite Hl, Hi', Hr. lia.
  - simpl_opt. unfold image_onload in Hev. simpl_opt.
    pose proof (length_delete_lookup _ _ _ H4).
    assert (0 < length (loads s)) by (eapply lookup_lt_Some in H4; lia).
    destruct (Canvas.onload _ _ _) as [[] cv]; simpl_opt.
    + apply setIsLoading_frame in Hev as Hf. destruct Hf as (_ & _ & _ & Hr & _).
      apply setIsLoading_loads in Hev as [Hi [[Hl Hi0] | [Hl Hi0]]]; cbn in *;
        rewrite Hr, Hl, Hi; rewrite ?Hi0; cbn; lia.
    + subst. cbn. destruct (isLoading s); lia.
  - simpl_opt. unfold image_onerror in Hev. simpl_opt. subst. cbn.
    pose proof (length_delete_lookup _ _ _ H3).
    assert (0 < length (loads s)) by (eapply lookup_lt_Some in H3; lia).
    destruct (isLoading s); lia.
Qed.

(** C35: No run of completions alone is infinite: the relation "one read or
    image callback leads from [s] to [s']" is well founded. *)
Theorem async_runs_terminate :
  well_founded (fun s' s => exists ev, async ev = true /\ step s ev s').
Proof.
  intros s. remember (pending_measure s) as n eqn:E. revert s E.
  induction n as [n IH] using lt_wf_ind. intros s ->.
  constructor. intros s' (ev & Ha & Hs).
  eapply IH; [by eapply async_step_decreases | reflexivity].
Qed.

(** C3: An upload started on tab [a] writes its data URL into tab [a] even
    when the user has switched to tab [j] before the read completes; tab
    [j] and every other tab keep their state, and [j] stays active. *)
Theorem upload_writes_initiating_tab (s s1 s2 s3 : AppState) (f : file) (j : nat) (st : ImageState) :
  imageStates s !! activeTab s = Some st ->
  step s (Upload (Some f)) s1 -> step s1 (ClickTab j) s2 ->
  step s2 (ReaderDone (length (reads s))) s3 ->
  imageStates s3 !! activeTab s = Some (merge st [FcurrentImage (read_as_data_url f)]) /\
  (forall i, i <> activeTab s -> imageStates s3 !! i = imageStates s !! i) /\
  activeTab s3 = j.
Proof.
  intros Hst Hs1 Hs2 Hs3.
  inversion Hs1 as [? ? ? _ Hev1]; subst. cbn [handle_event] in Hev1.
  apply handleImageUpload_effect in Hev1 as (Hi1 & Ha1 & Hr1).
  inversion Hs2 as [? ? ? _ Hev2]; subst.
  apply setActiveTab_frame in Hev2 as (Ha2 & _ & Hi2 & Hr2 & _).
  inversion Hs3 as [? ? ? _ Hev3]; subst. cbn [handle_event] in Hev3.
  apply reader_onloadend_effect in Hev3 as (r & st' & Hr & Hst' & Hi3 & _ & Ha3).
  rewrite Hr2, Hr1, lookup_app_r, Nat.sub_diag in Hr by lia. injection Hr as <-.
  cbn in Hst', Hi3. rewrite Hi2, Hi1, Hst in Hst'. injection Hst' as <-.
  rewrite Hi3, Hi2, Hi1. split; [|split].
  - apply list_lookup_insert_eq. by eapply lookup_lt_Some.
  - intros i Hi. by apply list_lookup_insert_ne.
  - by rewrite Ha3.
Qed.

Lemma drain_step_props (s s' : AppState) :
  drain_step s s' ->
  ordered_reachable s -> ordered_reachable s' /\
  pending_measure s' < pending_measure s /\
  imageStates s' = imageStates s /\ activeTab s' = activeTab s.
Proof.
  intros [Hst|Hst] Hr; (split; [eapply oreach_step; [exact Hr| |exact Hst]; reflexivity|]);
    (split; [by eapply async_step_decreases|]);
    inversion Hst as [? ? ? _ Hev]; subst; cbn [handle_event] in Hev; simpl_opt.
  - by apply image_onload_effect in Hev as (-> & _ & ->).
  - by apply image_onerror_effect in Hev as (-> & _ & ->).
Qed.

(** C8: Loads completing in the order they started make the display
    converge: from any state reached that way, completing the pending
    loads, oldest first, ends with none pending, the edit states and the
    active tab unchanged, and every canvas showing the current edit
    state's props for it (the image it decodes to, drawn by the routine),
    unless that image does not decode. *)
Theorem ordered_loads_converge (s : AppState) :
  ordered_reachable s ->
  exists s', rtc drain_step s s' /\ loads s' = [] /\
    imageStates s' = imageStates s /\ activeTab s' = activeTab s /\
    forall st k, imageStates s !! activeTab s = Some st ->
      shows (surface_get (canvases s') k) (surface_props k st).
Proof.
  intros Hr. remember (pending_measure s) as n eqn:En. revert s Hr En.
  induction n as [n IH] using lt_wf_ind. intros s Hr ->.
  destruct (decide (loads s = [])) as [Hnil|Hne].
  - exists s. do 4 (split; [done|]). intros st k Hst.
    pose proof (ordered_reachable_tracks s Hr k st Hst) as Hd.
    unfold display_tracks, loads_for in Hd. by rewrite Hnil in Hd.
  - destruct (drain_step_exists s) as [s1 Hs1]; [by apply ordered_reachable_wf|done|].
    destruct (drain_step_props _ _ Hs1 Hr) as (Hr1 & Hlt & Hi1 & Ha1).
    destruct (IH _ Hlt s1 Hr1 eq_refl) as (s' & Hrtc & Hnil & Hi & Ha & Hshow).
    exists s'. split; [by eapply rtc_l|]. rewrite Hi, Ha, Hi1, Ha1 in *. naive_solver.
Qed.

(** C23: The completion that clears the spinner restarts every load: the
    re-render it causes gives each canvas a new [onImageLoad] arrow, so
    the three effects start loads again with the same props, although no
    input the canvases draw changed. *)
Theorem spinner_clear_restarts_loads (s s' : AppState) (k : nat) (st : ImageState) :
  isLoading s = true -> imageStates s !! activeTab s = Some st ->
  step s (ImageLoaded k) s' -> isLoading s' = false ->
  loads s' = delete k (loads s) ++ [mkLoad Original (original_props st);
    mkLoad Processed (processed_props st); mkLoad GrayPreview (gray_props st)].
Proof.
  intros Hon Hst Hstep Hoff. inversion Hstep as [? ? ? _ Hev]; subst.
  cbn [handle_event] in Hev. simpl_opt. unfold image_onload in Hev. simpl_opt.
  destruct (Canvas.onload _ _ _) as [[] cv]; simpl_opt; [|subst; cbn in Hoff; congruence].
  unfold setIsLoading in Hev. cbn [isLoading with_canvases with_loads] in Hev.
  rewrite Hon in Hev. cbn in Hev.
  apply commit_Some in Hev as (st' & Hst' & ->). cbn in Hst' |- *.
  by rewrite Hst in Hst'; injection Hst' as <-.
Qed.

(** C24: [onImageLoad()] is called exactly when the routine completes: after
    an image load the spinner is off if and only if the routine returned
    normally or the spinner was already off; a routine that throws (as
    [getImageData] does on an empty image) leaves it as it was. *)
Theorem load_completion_signal (s s' : AppState) (k : nat) (ld : PendingLoad) (img : image) :
  loads s !! k = Some ld -> decode (src_of (Canvas.imageUrl (ld_props ld))) = Some img ->
  step s (ImageLoaded k) s' ->
  (isLoading s' = false <->
   fst (Canvas.onload (ld_props ld) img (surface_get (canvases s) (ld_surface ld))) = inl tt \/
   isLoading s = false).
Proof.
  intros Hld Hdec Hstep. inversion Hstep as [? ? ? _ Hev]; subst.
  cbn [handle_event] in Hev. rewrite Hld in Hev. cbn [mbind option_bind] in Hev.
  rewrite Hdec in Hev. cbn [mbind option_bind] in Hev.
  unfold image_onload in Hev. rewrite Hld in Hev. cbn [mbind option_bind] in Hev.
  cbn [canvases with_loads] in Hev |- *.
  destruct (Canvas.onload _ _ _) as [[[]|e] cv]; cbn [fst].
  - apply setIsLoading_frame in Hev as (_ & -> & _). tauto.
  - injection Hev as <-. cbn. split; [tauto|]. intros [Hc|Hc]; [discriminate|done].
Qed.

(** C25: A failed read stores [null]: [reader.result] is [null], the tab's
    [currentImage] becomes [null], and when the tab is active the
    re-render's three loads set [image.src] to the string "null". *)
Theorem failed_read_loads_null (s s' : AppState) (k : nat) (r : PendingRead) :
  reads s !! k = Some r -> read_as_data_url (rd_file r) = None ->
  rd_index r = activeTab s -> step s (ReaderDone k) s' ->
  exists st l, imageStates s' !! activeTab s = Some st /\ currentImage st = None /\
    loads s' = l ++ [mkLoad Original (original_props st);
      mkLoad Processed (processed_props st); mkLoad GrayPreview (gray_props st)] /\
    src_of (Canvas.imageUrl (processed_props st)) = "null".
Proof.
  intros Hr Hf Ha Hstep. inversion Hstep as [? ? ? _ Hev]; subst.
  cbn [handle_event] in Hev. unfold reader_onloadend in Hev. rewrite Hr in Hev.
  cbn [mbind option_bind] in Hev. rewrite Hf, Ha in Hev.
  unfold updateImageState, setImageStates in Hev.
  apply bind_Some in Hev as (l & Hl & Hev). apply bind_Some in Hl as (st0 & _ & Hl).
  apply array_set_Some in Hl as [Hlt ->].
  apply commit_Some in Hev as (st' & Hst' & ->). cbn in Hst'.
  rewrite list_lookup_insert_eq in Hst' by done. injection Hst' as <-.
  eexists _, _. cbn [imageStates loads with_loads with_imageStates with_reads].
  rewrite list_lookup_insert_eq by done.
  split; [reflexivity|]. split; [by destruct st0|]. split; [reflexivity|].
  by destruct st0.
Qed.

(** Forward construction of reachable states, one handled event at a
    time. *)
Definition next (ev : event) (s : AppState) : AppState := default s (handle_event ev s).

Lemma reach_next (s : AppState) (ev : event) :
  reachable s -> allowed s ev -> is_Some (handle_event ev s) -> reachable (next ev s).
Proof.
  intros Hr Ha [s' Hs]. unfold next. rewrite Hs. cbn.
  eapply reach_step; [exact Hr | by constructor].
Qed.

(** The first render, from empty canvases. *)
Definition small_canvases : Surfaces :=
  mkSurfaces (Canvas.reset 0 0) (Canvas.reset 0 0) (Canvas.reset 0 0).

Definition mounted : AppState := default (state0 small_canvases) (commit (state0 small_canvases)).

Lemma reach_mounted : reachable mounted.
Proof.
  apply (reach_mount small_canvases). unfold mounted.
  destruct (commit_is_Some (state0 small_canvases)) as [s ->]; [cbn; lia | done].
Qed.

End WithPlatform.

Section Scenarios.
Import Platform.ModelBrowser.

Definition upload_file : file := Some sample_png.

(** The brightness slider moved to 50 is a value the widget produces. *)
Lemma allowed_brightness_50 (s : AppState) : allowed s (Control (Panels.FromControls (Panels.BrightnessInput "50"))).
Proof.
  exists (Num 50). split; [|vm_compute; reflexivity].
  split; [split; vm_compute; discriminate | by exists 150%Z].
Qed.

Lemma ordered_mounted : ordered_reachable mounted.
Proof. apply (oreach_mount small_canvases). vm_compute. reflexivity. Qed.

(** Reachability of a state built by [next] from [mounted]. *)
Ltac reach_by :=
  lazymatch goal with
  | |- reachable mounted => apply reach_mounted
  | |- reachable (next ?ev ?s) =>
      apply (reach_next s ev);
        [ reach_by
        | first [cbn [allowed length tabs Panels.widget_ok]; try lia; done
                | apply allowed_brightness_50]
        | vm_compute; eexists; reflexivity ]
  end.

(** Steps of the model browser, checked by evaluation. *)
Ltac step_by := constructor; [cbn; try lia; done | vm_compute; reflexivity].

Lemma upload_writes_initiating_tab_witness :
  imageStates (next (ReaderDone 0) (next (ClickTab 1) (next (Upload (Some upload_file)) mounted))) !! 0
    = Some (merge defaultImageState [FcurrentImage (read_as_data_url upload_file)]) /\
  (forall i, i <> 0 ->
     imageStates (next (ReaderDone 0) (next (ClickTab 1) (next (Upload (Some upload_file)) mounted))) !! i
     = imageStates mounted !! i) /\
  activeTab (next (ReaderDone 0) (next (ClickTab 1) (next (Upload (Some upload_file)) mounted))) = 1.
Proof.
  apply (upload_writes_initiating_tab mounted (next (Upload (Some upload_file)) mounted)
           (next (ClickTab 1) (next (Upload (Some upload_file)) mounted))
           _ upload_file 1 defaultImageState);
    [vm_compute; reflexivity | step_by | step_by | step_by].
Defined.

Lemma mounted_wf : wf_app mounted.
Proof. apply (wf_commit_state0 small_canvases). vm_compute. reflexivity. Qed.

Lemma reachable_wf_witness : wf_app mounted.
Proof. apply reachable_wf, reach_mounted. Defined.

Lemma step_isolation_witness :
  imageStates (next ClickReset (next (Control (Panels.FromControls (Panels.BrightnessInput "50"))) mounted)) !! 1 =
  imageStates (next (Control (Panels.FromControls (Panels.BrightnessInput "50"))) mounted) !! 1.
Proof.
  apply (step_isolation _ _ ClickReset 1); [step_by | vm_compute; discriminate].
Defined.

Lemma reset_restores_defaults_witness :
  step (next (Control (Panels.FromControls (Panels.BrightnessInput "50"))) mounted) ClickReset
       (next ClickReset (next (Control (Panels.FromControls (Panels.BrightnessInput "50"))) mounted)) /\
  imageStates (next ClickReset (next (Control (Panels.FromControls (Panels.BrightnessInput "50"))) mounted)) !! 1
    = imageStates (next (Control (Panels.FromControls (Panels.BrightnessInput "50"))) mounted) !! 1.
Proof.
  assert (Hs : step (next (Control (Panels.FromControls (Panels.BrightnessInput "50"))) mounted) ClickReset
       (next ClickReset (next (Control (Panels.FromControls (Panels.BrightnessInput "50"))) mounted))) by step_by.
  split; [exact Hs|].
  destruct (reset_restores_defaults _ _ Hs) as (_ & Hother & _). apply Hother. vm_compute. discriminate.
Defined.

Lemma switch_tab_preserves_states_witness :
  step mounted (ClickTab 2) (next (ClickTab 2) mounted) /\
  isLoading (next (ClickTab 2) mounted) = isLoading mounted.
Proof.
  assert (Hs : step mounted (ClickTab 2) (next (ClickTab 2) mounted)) by step_by.
  split; [exact Hs|]. apply (switch_tab_preserves_states _ _ _ Hs).
Defined.

Lemma control_updates_active_witness :
  step mounted (Control (Panels.FromControls (Panels.BrightnessInput "50")))
       (next (Control (Panels.FromControls (Panels.BrightnessInput "50"))) mounted) /\
  imageStates (next (Control (Panels.FromControls (Panels.BrightnessInput "50"))) mounted) !! 2
    = imageStates mounted !! 2.
Proof.
  assert (Hs : step mounted (Control (Panels.FromControls (Panels.BrightnessInput "50")))
       (next (Control (Panels.FromControls (Panels.BrightnessInput "50"))) mounted))
    by (constructor; [apply allowed_brightness_50 | vm_compute; reflexivity]).
  split; [exact Hs|].
  destruct (control_updates_active _ _ _ Hs) as (st & _ & -> & _).
  apply list_lookup_insert_ne. vm_compute. discriminate.
Defined.

Lemma app_refines_contract_witness :
  abstract (next (ClickTab 2) mounted) = abstract mounted \/
  contract_step (abstract mounted) (abstract (next (ClickTab 2) mounted)).
Proof. apply (app_refines_contract _ _ (ClickTab 2)); [apply mounted_wf | step_by]. Defined.

(** The first render with its loads replaced by one of an image the
    model browser cannot decode. *)
Definition stuck_state : AppState :=
  with_loads [mkLoad Processed
    (processed_props (merge defaultImageState [FcurrentImage (Some "broken.png")]))] mounted.

Lemma spinner_stuck_when_loads_fail_witness :
  isLoading (next (ImageFailed 0) stuck_state) = true.
Proof.
  apply (spinner_stuck_when_loads_fail stuck_state);
    [vm_compute; reflexivity | vm_compute; reflexivity | vm_compute; repeat constructor |].
  apply rtc_once. exists (ImageFailed 0). split; [reflexivity | step_by].
Defined.

Lemma user_events_total_witness : is_Some (handle_event ClickReset mounted).
Proof. apply user_events_total; [apply mounted_wf | exact I | exact I]. Defined.

Lemma load_completion_signal_witness :
  isLoading (next (ImageLoaded 0) mounted) = false <->
  fst (Canvas.onload (original_props defaultImageState) (1%Z, 1%Z, [90; 120; 200; 255]%Z)
        (surface_get (canvases mounted) Original)) = inl tt \/ isLoading mounted = false.
Proof.
  apply (load_completion_signal mounted _ 0 (mkLoad Original (original_props defaultImageState)));
    [vm_compute; reflexivity | vm_compute; reflexivity | step_by].
Defined.

(** A file whose read fails: its [reader.result] is [null]. *)
Definition failed_file : file := None.

Lemma failed_read_loads_null_witness :
  exists st l,
    imageStates (next (ReaderDone 0) (next (Upload (Some failed_file)) mounted))
      !! activeTab (next (Upload (Some failed_file)) mounted) = Some st /\
    currentImage st = None /\
    loads (next (ReaderDone 0) (next (Upload (Some failed_file)) mounted)) =
      l ++ [mkLoad Original (original_props st);
            mkLoad Processed (processed_props st); mkLoad GrayPreview (gray_props st)] /\
    src_of (Canvas.imageUrl (processed_props st)) = "null".
Proof.
  apply (failed_read_loads_null _ _ 0 (mkRead 0 failed_file));
    [vm_compute; reflexivity | reflexivity | vm_compute; reflexivity | step_by].
Defined.

Lemma ordered_loads_converge_witness :
  exists s', rtc drain_step mounted s' /\ loads s' = [] /\
    forall k, shows (surface_get (canvases s') k) (surface_props k defaultImageState).
Proof.
  destruct (ordered_loads_converge mounted ordered_mounted)
    as (s' & Hrtc & Hnil & _ & _ & Hshow).
  exists s'. split; [exact Hrtc|]. split; [exact Hnil|].
  intros k. apply Hshow. vm_compute. reflexivity.
Defined.

Lemma spinner_clear_restarts_loads_witness :
  loads (next (ImageLoaded 0) mounted) =
    delete 0 (loads mounted) ++ [mkLoad Original (original_props defaultImageState);
      mkLoad Processed (processed_props defaultImageState);
      mkLoad GrayPreview (gray_props defaultImageState)].
Proof.
  apply (spinner_clear_restarts_loads mounted _ 0 defaultImageState);
    [vm_compute; reflexivity | vm_compute; reflexivity | step_by | vm_compute; reflexivity].
Defined.

(** C22: The shared spinner goes off before an uploaded image is even read:
    right after an upload, the completion of a load of the previous image
    clears [isLoading], while the upload's read is still pending and no
    tab holds its data URL. *)
Theorem upload_spinner_cleared_early :
  exists s1 s2 k ld, reachable mounted /\
    step mounted (Upload (Some upload_file)) s1 /\ isLoading s1 = true /\
    loads s1 !! k = Some ld /\ Canvas.imageUrl (ld_props ld) = Some DEFAULT_IMAGE /\
    step s1 (ImageLoaded k) s2 /\ isLoading s2 = false /\
    reads s2 = [mkRead (activeTab mounted) upload_file] /\
    Forall (fun st => currentImage st <> read_as_data_url upload_file) (imageStates s2).
Proof.
  exists (next (Upload (Some upload_file)) mounted),
    (next (ImageLoaded 0) (next (Upload (Some upload_file)) mounted)), 0,
    (mkLoad Original (original_props defaultImageState)).
  split_and!; [apply reach_mounted | step_by | vm_compute; reflexivity.. | step_by
              | vm_compute; reflexivity | vm_compute; reflexivity | vm_compute; repeat constructor; discriminate].
Qed.

(** C21: A superseded load is not cancelled: after brightness 50, the load
    of the state before it completing last leaves the processed canvas
    drawn with brightness 0, with no load or read pending that would
    repaint it. *)
Theorem stale_load_overwrites :
  exists s st st_old img, reachable s /\ loads s = [] /\ reads s = [] /\
    imageStates s !! activeTab s = Some st /\ st = merge st_old [Fbrightness (Num 50)] /\
    brightness st_old = Num 0 /\
    decode (src_of (currentImage st)) = Some img /\
    processed (canvases s) = Canvas.render_spec (processed_props st_old) img /\
    processed (canvases s) <> Canvas.render_spec (processed_props st) img.
Proof.
  set (t1 := next (Control (Panels.FromControls (Panels.BrightnessInput "50"))) mounted).
  set (t4 := next (ImageLoaded 1) (next (ImageLoaded 6) (next (ImageLoaded 4) t1))).
  set (t10 := next (ImageLoaded 0) (next (ImageLoaded 0) (next (ImageLoaded 0)
                (next (ImageLoaded 0) (next (ImageLoaded 0) (next (ImageLoaded 0) t4)))))).
  assert (Hr : reachable t10) by (unfold t10, t4, t1; reach_by).
  exists t10, (merge defaultImageState [Fbrightness (Num 50)]), defaultImageState,
    (1%Z, 1%Z, [90; 120; 200; 255]%Z).
  split; [exact Hr|]. vm_compute.
  do 7 (split; [reflexivity|]). discriminate.
Qed.

(** C20: The previews of one tab can show another tab's text: text typed
    on tab 0, then a switch to tab 1, and the loads of tab 0 completing
    last leave tab 1's processed preview drawn with tab 0's state and
    its text, with nothing pending to repaint it. *)
Theorem tab_switch_shows_other_tab :
  exists s st st0 img, reachable s /\ loads s = [] /\ activeTab s = 1 /\
    imageStates s !! 1 = Some st /\ imageStates s !! 0 = Some st0 /\
    overlayText st = "" /\ overlayText st0 = "Hi" /\
    decode (src_of (currentImage st0)) = Some img /\
    processed (canvases s) = Canvas.render_spec (processed_props st0) img /\
    processed (canvases s) <> Canvas.render_spec (processed_props st) img.
Proof.
  set (u2 := next (ClickTab 1) (next (Control (Panels.FromTextOverlay (Panels.TextInput "Hi"))) mounted)).
  set (u6 := next (ImageLoaded 0) (next (ImageLoaded 0) (next (ImageLoaded 0)
               (next (ImageLoaded 0) u2)))).
  set (u13 := next (ImageLoaded 1) (next (ImageLoaded 1) (next (ImageLoaded 1)
                (next (ImageLoaded 1) (next (ImageLoaded 1) (next (ImageLoaded 1)
                (next (ImageLoaded 1) u6))))))).
  set (u14 := next (ImageLoaded 0) u13).
  assert (Hr : reachable u14) by (unfold u14, u13, u6, u2; reach_by).
  exists u14, defaultImageState, (merge defaultImageState [FoverlayText "Hi"]),
    (1%Z, 1%Z, [90; 120; 200; 255]%Z).
  split; [exact Hr|]. vm_compute.
  do 8 (split; [reflexivity|]). discriminate.
Qed.

End Scenarios.

End App.
