(* ===== verification/AppView.v ===== *)
(** * AppView: the page App.tsx renders

    The JSX of [App] (App.tsx lines 83-237) as a [View.node] tree, built
    from the active tab's edit state: the sidebar of tab buttons
    ([tabs.map], the active one highlighted), the header, and the three
    columns: the original canvas with the upload input, the two panels
    with the reset button, the processed and grayscale canvases.  Each
    canvas is covered by the spinner overlay while [isLoading] holds.  A
    canvas is the [<canvas>] element of ImageCanvas.tsx (lines 92-97);
    its bitmap is [App.canvases].  Reading [imageStates[activeTab]] of a
    missing tab throws: the view is [None] then.  [slider_events] are the
    range inputs' [onChange] handlers; the theorems compose the page with
    [Panels] and the steps of [App]. *)

From S2P Require Import Prelude JsNum EditState Platform Canvas Panels View App.

Module AppView.
Import JsNum EditState Platform Panels View App.

Definition active_tab_class : string := "bg-blue-100 text-blue-600".
Definition idle_tab_class : string := "text-gray-500 hover:bg-gray-100".

(** One button of [tabs.map((tab, index) => ...)] (lines 88-99). *)
Definition tab_button (activeTab index : nat) (t : tab) : node :=
  Elem "button"
    [("className", ("p-3 rounded-lg transition-all duration-200 " ++
                    if Nat.eqb activeTab index then active_tab_class else idle_tab_class)%string)]
    [icon (tab_icon t) "w-6 h-6"; Elem "span" [("className", "text-xs mt-1 block")] [Text (tab_label t)]].

Definition spinner_class : string :=
  "absolute inset-0 flex items-center justify-center bg-gray-100 rounded-lg".

(** [{isLoading && (<div ...>...</div>)}] (lines 119-123, 189-193, 213-217). *)
Definition spinner : node :=
  Elem "div" [("className", spinner_class)]
    [Elem "div" [("className", "animate-spin rounded-full h-12 w-12 border-4 border-blue-500 border-t-transparent")] []].

Definition spinner_if (isLoading : bool) : list node := if isLoading then [spinner] else [].

(** The element [ImageCanvas] returns (ImageCanvas.tsx lines 92-97). *)
Definition canvas_view : node :=
  Elem "canvas" [("className", "max-w-full h-auto rounded-lg shadow-lg")] [].

Definition heading_class : string := "text-lg font-semibold text-gray-800 text-center".

Definition page (activeTab : nat) (isLoading : bool) (st : ImageState) : node :=
  Elem "div" [("className", "min-h-screen bg-gray-50 flex")]
    [Elem "div" [("className", "w-20 bg-white shadow-lg flex flex-col items-center py-8 gap-4")]
       (imap (tab_button activeTab) tabs);
     Elem "div" [("className", "flex-1 py-8 px-4 sm:px-6 lg:px-8 overflow-y-auto")]
       [Elem "header" [("className", "text-center mb-8")]
          [Elem "div" [("className", "flex items-center justify-center gap-2 mb-2")]
             [icon "Image" "w-8 h-8 text-blue-600";
              Elem "h1" [("className", "text-3xl font-bold text-gray-900")] [Text "Image Processing Demo"]];
           Elem "p" [("className", "text-gray-600")] [Text "Experiment with various image processing effects"]];
        Elem "div" [("className", "bg-white rounded-xl shadow-lg p-6")]
          [Elem "div" [("className", "grid grid-cols-1 lg:grid-cols-3 gap-8")]
             [Elem "div" [("className", "space-y-4")]
                [Elem "h2" [("className", heading_class)] [Text "Original Image"];
                 Elem "div" [("className", "relative")] (spinner_if isLoading ++ [canvas_view]);
                 Elem "label" [("className", "flex items-center justify-center w-full px-4 py-2 bg-blue-600 text-white rounded-lg hover:bg-blue-700 transition-colors duration-200 cursor-pointer gap-2")]
                   [icon "Upload" "w-5 h-5"; Text "Upload Image";
                    Elem "input" [("type", "file"); ("accept", "image/*"); ("className", "hidden")] []]];
              Elem "div" [("className", "space-y-6")]
                [Elem "h2" [("className", heading_class)] [Text "Controls"];
                 controls_view (mkControlsProps (brightness st) (contrast st) (blur st) (grayscale st));
                 text_overlay_view (mkTextOverlayProps (overlayText st) (textColor st) (fontSize st) (textPosition st));
                 Elem "button" [("className", "w-full py-2 px-4 bg-blue-600 text-white rounded-lg hover:bg-blue-700 transition-colors duration-200")]
                   [Text "Reset All Effects"]];
              Elem "div" [("className", "space-y-4")]
                [Elem "div" []
                   [Elem "h2" [("className", heading_class ++ " mb-4")%string] [Text "Processed Image"];
                    Elem "div" [("className", "relative")] (spinner_if isLoading ++ [canvas_view])];
                 Elem "div" []
                   [Elem "h3" [("className", "text-md font-medium text-gray-800 text-center mb-4")] [Text "Grayscale Preview"];
                    Elem "div" [("className", "relative")] (spinner_if isLoading ++ [canvas_view])]]]]]].

Section WithPlatform.
Context `{Canvas2D} `{FileAPI}.

(** The render of [App] (lines 83-237). *)
Definition app_view (s : AppState) : option node :=
  st ← imageStates s !! activeTab s; Some (page (activeTab s) (isLoading s) st).

End WithPlatform.

(** The highlighted elements of a tree: the buttons with the active class. *)
Definition highlighted (n : node) : list node :=
  List.filter (has_class ("p-3 rounded-lg transition-all duration-200 " ++ active_tab_class)%string)
              (subnodes n).

(** The spinner overlays and the canvases of a tree. *)
Definition spinners (n : node) : list node := List.filter (has_class spinner_class) (subnodes n).
Definition canvases_of (n : node) : list node := List.filter (is_tag "canvas") (subnodes n).

(** The [onChange] handler of each range input of the page, in document
    order (Controls.tsx lines 37, 53, 70; TextOverlay.tsx lines 66, 83,
    99): the event each produces from its [e.target.value]. *)
Definition slider_events : list (string -> Panels.control_event) :=
  [fun v => Panels.FromControls (Panels.BrightnessInput v);
   fun v => Panels.FromControls (Panels.ContrastInput v);
   fun v => Panels.FromControls (Panels.BlurInput v);
   fun v => Panels.FromTextOverlay (Panels.FontSizeInput v);
   fun v => Panels.FromTextOverlay (Panels.XInput v);
   fun v => Panels.FromTextOverlay (Panels.YInput v)].

(** ** What the page shows *)

(** A well-formed state renders: [imageStates[activeTab]] exists. *)
Lemma wf_app_view `{Canvas2D} `{FileAPI} (s : AppState) :
  wf_app s -> exists st, imageStates s !! activeTab s = Some st /\
                         app_view s = Some (page (activeTab s) (isLoading s) st).
Proof.
  intros (Hlen & Hact & _). unfold app_view.
  destruct (lookup_lt_is_Some_2 (imageStates s) (activeTab s)) as [st Hst]; [lia|].
  rewrite Hst. by exists st.
Qed.

(** The page's range inputs are the two panels'. *)
Lemma page_range_inputs (i : nat) (b : bool) (st : ImageState) :
  range_inputs (page i b st) =
    range_inputs (controls_view (mkControlsProps (brightness st) (contrast st) (blur st) (grayscale st)))
    ++ range_inputs (text_overlay_view
         (mkTextOverlayProps (overlayText st) (textColor st) (fontSize st) (textPosition st))).
Proof. destruct b; reflexivity. Qed.

Lemma page_highlighted (i : nat) (b : bool) (st : ImageState) (t : tab) :
  tabs !! i = Some t -> highlighted (page i b st) = [tab_button i i t].
Proof.
  destruct i as [|[|[|i]]]; intros Ht; cbn in Ht; simplify_eq; destruct b; reflexivity.
Qed.

Lemma page_spinners (i : nat) (b : bool) (st : ImageState) :
  spinners (page i b st) = if b then [spinner; spinner; spinner] else [].
Proof. destruct b; reflexivity. Qed.

Lemma page_canvases (i : nat) (b : bool) (st : ImageState) :
  canvases_of (page i b st) = [canvas_view; canvas_view; canvas_view].
Proof. destruct b; reflexivity. Qed.

Local Open Scope editor_scope.

(** A control event an input can produce whose update leaves the active
    tab's state the same is handled, and leaves the edit states and the
    page the same. *)
(** The same state renders the same page: the page shows numbers through
    [String(n)], which depends on their value only. *)
#[export] Instance page_proper (i : nat) (b : bool) : Proper ((≡) ==> (=)) (page i b).
Proof.
  intros st st' (_ & Hb & Hc & Hbl & Hg & Ht & [Hx Hy] & Hcol & Hf).
  unfold page, controls_view, text_overlay_view, slider_group. cbn [c_brightness c_contrast c_blur
    c_grayscale t_text t_textColor t_fontSize t_textPosition].
  by rewrite (to_string_proper _ _ Hb), (to_string_proper _ _ Hc), (to_string_proper _ _ Hbl),
    (to_string_proper _ _ Hf), (to_string_proper _ _ Hx), (to_string_proper _ _ Hy), Hg, Ht, Hcol.
Qed.

(** A value read back from what a slider shows is the value, and is in
    the slider's range. *)
Ltac read_back :=
  match goal with
  | H : num_eq (of_string ?a) ?v |- num_eq (of_string ?a) ?v => exact H
  | H : num_eq (of_string ?a) ?v |- on_range _ _ _ (of_string ?a) =>
      apply (proj2 (on_range_proper _ _ _ _ _ H)); assumption
  end.

Lemma control_echo `{Canvas2D} `{FileAPI} (s : AppState) (st : ImageState) (e : Panels.control_event) :
  wf_app s -> imageStates s !! activeTab s = Some st -> Panels.widget_ok e ->
  st ⊲ Panels.on_change (textPosition st) e ≡ st ->
  exists s', step s (Control e) s' /\ imageStates s' ≡ imageStates s /\ app_view s' = app_view s.
Proof.
  intros (Hlen & Hact & _) Hst Hok Heq.
  assert (Hs : is_Some (handle_event (Control e) s)).
  { cbn [handle_event]. rewrite Hst. cbn [mbind option_bind]. unfold updateImageState.
    apply (setImageStates_is_Some _ _ (<[activeTab s := st ⊲ Panels.on_change (textPosition st) e]> (imageStates s))).
    - rewrite Hst. cbn [mbind option_bind]. unfold array_set. by rewrite decide_True by lia.
    - rewrite length_insert. lia. }
  destruct Hs as [s' Hs']. exists s'. split.
  { by constructor. }
  cbn [handle_event] in Hs'. rewrite Hst in Hs'. cbn [mbind option_bind] in Hs'.
  apply updateImageState_effect in Hs' as (st0 & Hst0 & Hl & Ha & Hload & _).
  rewrite Hst in Hst0. simplify_eq. split.
  - rewrite Hl, Heq. by rewrite list_insert_id.
  - unfold app_view. rewrite Hl, Ha, Hload, Hst, list_lookup_insert_eq by (by eapply lookup_lt_Some).
    cbn. by rewrite Heq.
Qed.

(** ** Theorems *)

(** C11: The sidebar highlights exactly the active tab: in a well-formed
    state the page renders, one element carries the active class, and
    its text is the active tab's label. *)
Theorem page_highlights_active_tab `{Canvas2D} `{FileAPI} (s : AppState) :
  wf_app s ->
  exists v t, app_view s = Some v /\ tabs !! activeTab s = Some t /\
              map text_content (highlighted v) = [tab_label t].
Proof.
  intros Hwf. destruct (wf_app_view s Hwf) as (st & _ & ->).
  destruct Hwf as (_ & Hact & _).
  destruct (lookup_lt_is_Some_2 tabs (activeTab s)) as [t Ht]; [cbn; lia|].
  exists (page (activeTab s) (isLoading s) st), t. rewrite (page_highlighted _ _ _ t) by done.
  repeat split; [done|]. cbn. by rewrite string_app_nil_l, !string_app_nil_r.
Qed.

(** C12: Each of the three canvases carries the spinner while the page
    loads: a well-formed state renders three canvases, and three spinner
    overlays when [isLoading] holds, none otherwise. *)
Theorem spinner_covers_canvases `{Canvas2D} `{FileAPI} (s : AppState) :
  wf_app s ->
  exists v, app_view s = Some v /\ length (canvases_of v) = 3 /\
            length (spinners v) = if isLoading s then 3 else 0.
Proof.
  intros Hwf. destruct (wf_app_view s Hwf) as (st & _ & ->). eexists. split; [done|].
  rewrite page_canvases, page_spinners. by destruct (isLoading s).
Qed.

(** C10: The page's sliders show the active tab: in a well-formed state,
    the six range inputs of the rendered page, in document order, carry
    [value] attributes that [Number(e.target.value)] reads back as the
    active tab's brightness, contrast, blur, font size, x and y. *)
Theorem page_sliders_show_active_tab `{Canvas2D} `{FileAPI} (s : AppState) :
  wf_app s ->
  exists v st, app_view s = Some v /\ imageStates s !! activeTab s = Some st /\
    Forall2 (fun n v => exists str, attr "value" n = Some str /\ num_eq (of_string str) v)
      (range_inputs v)
      [brightness st; contrast st; blur st; fontSize st; x (textPosition st); y (textPosition st)].
Proof.
  intros Hwf. destruct (wf_app_view s Hwf) as (st & Hst & ->).
  destruct Hwf as (_ & _ & Hall & _). exists (page (activeTab s) (isLoading s) st), st.
  rewrite page_range_inputs. repeat split; [done|].
  apply panels_show_state. exact (Forall_lookup_1 _ _ _ _ Hall Hst).
Qed.

(** C13: Moving a slider to the value it shows changes nothing: in a
    well-formed state, each of the page's six range inputs, fed its own
    [value] as [e.target.value], produces an event the orchestrator
    handles, the edit states after it are the same as before (equal
    fields, numbers equal as values), and the page renders as before. *)
Theorem slider_echo_keeps_states `{Canvas2D} `{FileAPI} (s : AppState) :
  wf_app s ->
  exists v, app_view s = Some v /\
    Forall2 (fun n ev => exists str, attr "value" n = Some str /\
               exists s', step s (Control (ev str)) s' /\
                          imageStates s' ≡ imageStates s /\ app_view s' = app_view s)
      (range_inputs v) slider_events.
Proof.
  intros Hwf. destruct (wf_app_view s Hwf) as (st & Hst & Hv).
  exists (page (activeTab s) (isLoading s) st). split; [done|].
  pose proof Hwf as (_ & _ & Hall & _).
  pose proof (Forall_lookup_1 _ _ _ _ Hall Hst) as (Hb & Hc & Hbl & Hf & Hx & Hy).
  pose proof (int_value_read_back _ _ _ Hb). pose proof (int_value_read_back _ _ _ Hc).
  pose proof (half_value_read_back _ _ Hbl). pose proof (int_value_read_back _ _ _ Hf).
  pose proof (int_value_read_back _ _ _ Hx). pose proof (int_value_read_back _ _ _ Hy).
  rewrite page_range_inputs. destruct st as [ci b c bl g t [px py] col fs]; cbn in *.
  repeat apply Forall2_cons; try apply Forall2_nil;
    (eexists; split; [reflexivity|]; apply (control_echo _ _ _ Hwf Hst); cbn;
     [ eexists; split; [|reflexivity]; assumption
     | hnf; cbn;
       split_and!; try split; cbn; first [reflexivity | read_back] ]).
Qed.

(** C19: Reset All Effects shows the defaults: after the reset click the
    page is the page of [defaultImageState] for the same tab and spinner,
    its sliders show 0, 0, 0, 24, 50 and 50, and its text field is
    empty. *)
Theorem reset_page_shows_defaults `{Canvas2D} `{FileAPI} (s s' : AppState) :
  step s ClickReset s' ->
  app_view s' = Some (page (activeTab s) (isLoading s) defaultImageState) /\
  map (attr "value") (range_inputs (page (activeTab s) (isLoading s) defaultImageState)) =
    [Some "0"; Some "0"; Some "0"; Some "24"; Some "50"; Some "50"] /\
  map (attr "value") (List.filter (is_tag "input") (subnodes
    (text_overlay_view (mkTextOverlayProps (overlayText defaultImageState) (textColor defaultImageState)
       (fontSize defaultImageState) (textPosition defaultImageState)))))
    = [Some ""; Some "#ffffff"; Some "24"; Some "50"; Some "50"].
Proof.
  intros Hstep. inversion Hstep as [? ? ? _ Hev]; subst. cbn [handle_event] in Hev.
  apply handleReset_effect in Hev as (Hlt & Hst & Ha & Hl & _).
  split; [|split; [by destruct (isLoading s) | reflexivity]].
  unfold app_view. by rewrite Ha, Hl, Hst, list_lookup_insert_eq.
Qed.

(** The page depends on the active tab, the spinner and the edit states
    only. *)
Lemma app_view_frame `{Canvas2D} `{FileAPI} (s t : AppState) :
  activeTab t = activeTab s -> isLoading t = isLoading s -> imageStates t = imageStates s ->
  app_view t = app_view s.
Proof. unfold app_view. by intros -> -> ->. Qed.

(** C17: Switching to another tab and back shows the page as it was: the
    two clicks leave the active tab, the spinner and the edit states, so
    the render is the same. *)
Theorem tab_round_trip_same_page `{Canvas2D} `{FileAPI} (s s1 s2 : AppState) (j : nat) :
  step s (ClickTab j) s1 -> step s1 (ClickTab (activeTab s)) s2 -> app_view s2 = app_view s.
Proof.
  intros Hs1 Hs2. inversion Hs1 as [? ? ? _ Hev1]; inversion Hs2 as [? ? ? _ Hev2]; subst.
  cbn [handle_event] in Hev1, Hev2.
  apply setActiveTab_frame in Hev1 as (_ & Hl1 & Hi1 & _).
  apply setActiveTab_frame in Hev2 as (Ha2 & Hl2 & Hi2 & _).
  apply app_view_frame; congruence.
Qed.

Section Scenarios.
Import Platform.ModelBrowser.

Lemma page_highlights_active_tab_witness :
  wf_app mounted /\ exists v t, app_view mounted = Some v /\ tabs !! activeTab mounted = Some t /\
                                map text_content (highlighted v) = [tab_label t].
Proof. split; [apply mounted_wf | apply page_highlights_active_tab, mounted_wf]. Defined.

Lemma spinner_covers_canvases_witness :
  wf_app mounted /\ exists v, app_view mounted = Some v /\ length (canvases_of v) = 3 /\
                              length (spinners v) = if isLoading mounted then 3 else 0.
Proof. split; [apply mounted_wf | apply spinner_covers_canvases, mounted_wf]. Defined.

Lemma page_sliders_show_active_tab_witness :
  wf_app mounted /\ exists v st, app_view mounted = Some v /\
    imageStates mounted !! activeTab mounted = Some st /\
    Forall2 (fun n v => exists str, attr "value" n = Some str /\ num_eq (of_string str) v)
      (range_inputs v)
      [brightness st; contrast st; blur st; fontSize st; x (textPosition st); y (textPosition st)].
Proof. split; [apply mounted_wf | apply page_sliders_show_active_tab, mounted_wf]. Defined.

(** Steps of the model browser, checked by evaluation. *)
Local Ltac step_by := constructor; [cbn; try lia; done | vm_compute; reflexivity].

Lemma slider_echo_keeps_states_witness :
  wf_app mounted /\ exists v, app_view mounted = Some v /\
    Forall2 (fun n ev => exists str, attr "value" n = Some str /\
               exists s', step mounted (Control (ev str)) s' /\
                          imageStates s' ≡ imageStates mounted /\ app_view s' = app_view mounted)
      (range_inputs v) slider_events.
Proof. split; [apply mounted_wf | apply slider_echo_keeps_states, mounted_wf]. Defined.

Lemma reset_page_shows_defaults_witness :
  step mounted ClickReset (next ClickReset mounted) /\
  app_view (next ClickReset mounted) = Some (page (activeTab mounted) (isLoading mounted) defaultImageState).
Proof.
  assert (Hs : step mounted ClickReset (next ClickReset mounted)) by step_by.
  split; [exact Hs | apply (reset_page_shows_defaults _ _ Hs)].
Defined.

Lemma tab_round_trip_same_page_witness :
  step mounted (ClickTab 1) (next (ClickTab 1) mounted) /\
  step (next (ClickTab 1) mounted) (ClickTab (activeTab mounted)) (next (ClickTab 0) (next (ClickTab 1) mounted)) /\
  app_view (next (ClickTab 0) (next (ClickTab 1) mounted)) = app_view mounted.
Proof.
  assert (H1 : step mounted (ClickTab 1) (next (ClickTab 1) mounted)) by step_by.
  assert (H2 : step (next (ClickTab 1) mounted) (ClickTab (activeTab mounted))
                 (next (ClickTab 0) (next (ClickTab 1) mounted))) by step_by.
  split; [exact H1 | split; [exact H2 | exact (tab_round_trip_same_page _ _ _ _ H1 H2)]].
Defined.

End Scenarios.

End AppView.
